(** * Token rotation in the Veo/Imagen API client

    A shallow embedding of [fetchWithTokenRotation] and of its two helpers
    [getSharedTokens] and [getPersonalToken], with the effects the function
    performs (console output, storage reads and writes, the remote token
    refresh, [addLogEntry], [fetch], [eventBus.dispatch]) recorded in order
    in a trace.

    Modelling conventions.
    - Strings are byte strings; tokens, labels and contexts are ASCII, where
      [s.slice(-6)] is the last six characters.
    - Values read from the two stores are modelled after [JSON.parse], at
      the types the source declares for them:
      [{ token: string; createdAt: string }[]] for the shared tokens and a
      user object with an optional string [personalAuthToken].
    - Response bodies are arbitrary JSON values.  A number is given by the
      string JavaScript prints it as, which is all the client ever does
      with one besides testing it against zero.
    - [sessionStorage.setItem] may throw (a full or disabled store); the
      environment says whether it does.
    - Whatever [fetch], [response.json()] and [getVeoAuthTokens] reject with
      is an [Error] object (TypeError, SyntaxError, DOMException all are),
      so [error instanceof Error] holds in every [catch]. *)

From Stdlib Require Import List String Ascii ZArith Lia Bool Arith DecimalString.
Import ListNotations.
Open Scope string_scope.
Set Warnings "-register-all".

(** ** JavaScript values *)

Module Js.

Record Error := mkError { name : string; message : string }.

(** [new Error(msg)] and the engine's [TypeError]s. *)
Definition newError (msg : string) : Error := mkError "Error" msg.
Definition typeError (msg : string) : Error := mkError "TypeError" msg.

(** Outcome of evaluating something that may throw. *)
Inductive Completion (A : Type) : Type :=
| Normal (a : A)
| Throw (e : Error).
Arguments Normal {A} a.
Arguments Throw {A} e.

Definition cbind {A B} (c : Completion A) (k : A -> Completion B) : Completion B :=
  match c with
  | Normal a => k a
  | Throw e => Throw e
  end.

(** A value produced by [JSON.parse]. An object is the list of its own
    properties; when a key occurs twice the later one counts, as it does in
    JSON text. A number is held as its string form ([Number::toString]:
    "42", "0.5", "1e+21"; both zeros print as "0"). *)
Inductive json : Type :=
| JNull
| JBool (b : bool)
| JNum (text : string)
| JStr (s : string)
| JArr (l : list json)
| JObj (m : list (string * json)).

(** A JavaScript value that may be [undefined]. *)
Definition value := option json.
Definition undefined : value := None.

(** The numbers the client itself prints are a position in [tokensToTry],
    the length of a token list and an HTTP status: integers far below
    1e21, which JavaScript prints in plain decimal. *)
Definition string_of_Z (z : Z) : string := NilZero.string_of_int (Z.to_int z).
Definition string_of_nat (n : nat) : string := NilZero.string_of_uint (Nat.to_uint n).

Fixpoint own (k : string) (m : list (string * json)) : value :=
  match m with
  | [] => undefined
  | (k', v) :: m' =>
      match own k m' with
      | Some w => Some w
      | None => if String.eqb k k' then Some v else undefined
      end
  end.

(** [v.k] on a value that is not [null], for the keys the client reads,
    [error] and [message]: no built-in prototype defines them, so only an
    object's own property can answer and every other value gives
    [undefined]. *)
Definition field (v : json) (k : string) : value :=
  match v with
  | JObj m => own k m
  | _ => undefined
  end.

(** [v.k]: reading from [null] throws. *)
Definition get (v : json) (k : string) : Completion value :=
  match v with
  | JNull => Throw (typeError ("Cannot read properties of null (reading '" ++ k ++ "')"))
  | _ => Normal (field v k)
  end.

(** [a?.k] *)
Definition optGet (a : value) (k : string) : value :=
  match a with
  | None | Some JNull => undefined
  | Some v => field v k
  end.

Definition truthy (a : value) : bool :=
  match a with
  | None | Some JNull => false
  | Some (JBool b) => b
  | Some (JNum text) => negb (String.eqb text "0")
  | Some (JStr s) => negb (String.eqb s "")
  | Some (JArr _) | Some (JObj _) => true
  end.

(** [ToString]. An array joins its elements with commas, [null] elements
    giving the empty string. An object prints as [[object Object]] unless
    an own [toString] property hides the inherited method: parsed JSON is
    never callable, [valueOf] returns the object, and the conversion
    throws. *)
Fixpoint toString (v : json) : Completion string :=
  match v with
  | JNull => Normal "null"
  | JBool true => Normal "true"
  | JBool false => Normal "false"
  | JNum text => Normal text
  | JStr s => Normal s
  | JArr l =>
      (fix join (l : list json) : Completion string :=
         match l with
         | [] => Normal ""
         | x :: rest =>
             cbind (match x with JNull => Normal "" | _ => toString x end)
               (fun s =>
                  match rest with
                  | [] => Normal s
                  | _ :: _ => cbind (join rest) (fun t => Normal (s ++ "," ++ t))
                  end)
         end) l
  | JObj m =>
      match own "toString" m with
      | Some _ => Throw (typeError "Cannot convert object to primitive value")
      | None => Normal "[object Object]"
      end
  end.

(** [s.slice(-n)] *)
Definition sliceLast (n : nat) (s : string) : string :=
  substring (String.length s - n) n s.

End Js.

Import Js.

(** ** The environment of a call and the effects it performs *)

Record AuthToken := mkToken { token : string; createdAt : string }.

(** [localStorage.getItem('currentUser')], after [JSON.parse]. *)
Record User := mkUser { personalAuthToken : option string }.

Inductive LocalItem : Type :=
| LocalMissing                       (* no item, or the empty string *)
| LocalUnparsable (e : Error)        (* JSON.parse throws *)
| LocalParsed (user : option User).  (* None: a falsy value such as null *)

(** [sessionStorage.getItem('veoAuthTokens')], after [JSON.parse]. *)
Inductive SessionItem : Type :=
| SessionMissing
| SessionUnparsable (e : Error)
| SessionNotArray
| SessionArray (l : list AuthToken).

Record Request := mkRequest
  { url : string; method : string; headers : list (string * string); body : json }.

(** What [await fetch(...)] gives: a rejection, or a response with its
    status and the outcome of [await response.json()]. *)
Inductive FetchOutcome : Type :=
| FetchRejects (e : Error)
| FetchResponds (status : nat) (parsed : Completion json).

Record Env := mkEnv
  { localStorage_currentUser : LocalItem;
    sessionStorage_veoAuthTokens : SessionItem;
    (* userService.getVeoAuthTokens, awaited; None is a null result *)
    getVeoAuthTokens : Completion (option (list AuthToken));
    (* sessionStorage.setItem('veoAuthTokens', ...): it stores the value, or
       throws and leaves the item as it was *)
    sessionStorage_setItem : list AuthToken -> Completion unit;
    (* the network: the answer to the k-th request of the call *)
    fetch : nat -> Request -> FetchOutcome }.

Inductive LogStatus := StatusSuccess | StatusError.

Record LogEntry := mkLogEntry
  { model : string; prompt : string; output : string; tokenCount : nat;
    status : LogStatus; error : option string }.

Inductive ConsoleArg := NoArg | StrArg (s : string) | ErrArg (e : Error) | NullArg.

Inductive Event : Type :=
| ConsoleLog (text : string)
| ConsoleError (text : string) (arg : ConsoleArg)
| LocalStorageGet (key : string)
| SessionStorageGet (key : string)
| SessionStorageSet (key : string) (value : list AuthToken)
| CallGetVeoAuthTokens
| AddLogEntry (entry : LogEntry)
| Fetch (req : Request)
| Dispatch (event : string).

(** A computation with its trace. *)
Definition W (A : Type) : Type := (A * list Event)%type.
Definition ret {A} (a : A) : W A := (a, []).
Definition bind {A B} (m : W A) (k : A -> W B) : W B :=
  (fst (k (fst m)), (snd m ++ snd (k (fst m)))%list).
Definition tell (e : Event) : W unit := (tt, [e]).

Notation "x <- m ;; k" := (bind m (fun x => k))
  (at level 61, m at next level, right associativity).
Notation "m ;;; k" := (bind m (fun _ => k))
  (at level 61, right associativity).

(** ** The source, function by function *)

Definition getSharedTokens (env_session : SessionItem) : W (list AuthToken) :=
  tell (SessionStorageGet "veoAuthTokens") ;;;
  match env_session with
  | SessionMissing => ret []
  | SessionUnparsable e =>
      tell (ConsoleError "Could not parse VEO/Imagen tokens from session storage" (ErrArg e)) ;;;
      ret []
  | SessionNotArray => ret []
  | SessionArray parsed => if (0 <? List.length parsed)%nat then ret parsed else ret []
  end.

Definition getPersonalToken (env : Env) : W (option AuthToken) :=
  tell (LocalStorageGet "currentUser") ;;;
  match localStorage_currentUser env with
  | LocalMissing => ret None
  | LocalUnparsable e =>
      tell (ConsoleError "Could not parse user from localStorage to get personal token" (ErrArg e)) ;;;
      ret None
  | LocalParsed None => ret None
  | LocalParsed (Some user) =>
      match personalAuthToken user with
      | Some t => if negb (String.eqb t "") then ret (Some (mkToken t "personal")) else ret None
      | None => ret None
      end
  end.

(** [if (specificToken)]: an absent argument and the empty string are both
    falsy. *)
Definition given (specificToken : option string) : bool :=
  match specificToken with
  | Some t => negb (String.eqb t "")
  | None => false
  end.

(** Lines 87-100: the re-fetch when the session holds no shared tokens.
    Returns the shared tokens to use and the session item as it is left.
    The write of line 93 comes before the assignment of line 94, both
    inside the [try]: when it throws, the [catch] of line 97 takes over and
    the tokens just fetched are not used. [SessionStorageSet] records the
    call of [setItem], whether or not it goes through. *)
Definition refetchSharedTokens (env : Env) (logContext : string)
  (sharedTokens : list AuthToken) : W (list AuthToken * SessionItem) :=
  let session := sessionStorage_veoAuthTokens env in
  if (List.length sharedTokens =? 0)%nat then
    tell (ConsoleLog ("[API Client] No shared tokens in session for " ++ logContext
                      ++ ". Attempting re-fetch.")) ;;;
    tell CallGetVeoAuthTokens ;;;
    match getVeoAuthTokens env with
    | Normal (Some newTokens) =>
        if (0 <? List.length newTokens)%nat then
          tell (SessionStorageSet "veoAuthTokens" newTokens) ;;;
          match sessionStorage_setItem env newTokens with
          | Normal _ =>
              tell (ConsoleLog ("[API Client] Successfully re-fetched "
                                ++ string_of_nat (List.length newTokens)
                                ++ " shared tokens.")) ;;;
              ret (newTokens, SessionArray newTokens)
          | Throw e =>
              tell (ConsoleError "[API Client] Failed to re-fetch auth tokens:"
                      (ErrArg e)) ;;;
              ret (sharedTokens, session)
          end
        else ret (sharedTokens, session)
    | Normal None => ret (sharedTokens, session)
    | Throw e =>
        tell (ConsoleError "[API Client] Failed to re-fetch auth tokens:" (ErrArg e)) ;;;
        ret (sharedTokens, session)
    end
  else ret (sharedTokens, session).

(** Lines 83-105, the [else] branch: personal token first, then the shared
    ones. *)
Definition rotationTokens (env : Env) (logContext : string)
  : W (list AuthToken * SessionItem) :=
  personalToken <- getPersonalToken env ;;
  sharedTokens <- getSharedTokens (sessionStorage_veoAuthTokens env) ;;
  refetched <- refetchSharedTokens env logContext sharedTokens ;;
  ret ((match personalToken with Some p => [p] | None => [] end ++ fst refetched)%list,
       snd refetched).

(** Lines 77-106: [tokensToTry], and the session item as the call leaves
    it. *)
Definition buildTokensToTry (env : Env) (logContext : string)
  (specificToken : option string) : W (list AuthToken * SessionItem) :=
  match specificToken with
  | Some t =>
      if negb (String.eqb t "")
      then ret ([mkToken t "N/A"], sessionStorage_veoAuthTokens env)
      else rotationTokens env logContext
  | None => rotationTokens env logContext
  end.

(** [response.ok] *)
Definition ok (status : nat) : bool := ((200 <=? status) && (status <=? 299))%nat.

(** [a || b], given that [b] is evaluated only when [a] is falsy. *)
Definition orElse (a : value) (b : Completion json) : Completion json :=
  match a with
  | Some v => if truthy a then Normal v else b
  | None => b
  end.

(** Line 137: [data.error?.message || data.message || `API call failed (${response.status})`] *)
Definition errorMessage (data : json) (status : nat) : Completion json :=
  cbind (get data "error") (fun err =>
  orElse (optGet err "message")
    (cbind (get data "message") (fun msg =>
     orElse msg (Normal (JStr ("API call failed (" ++ string_of_nat status ++ ")")))))).

(** Lines 137-138: what the non-2xx branch throws, [new Error(errorMessage)]
    or the TypeError raised on the way to it. *)
Definition statusError (data : json) (status : nat) : Error :=
  match cbind (errorMessage data status) toString with
  | Normal msg => newError msg
  | Throw e => e
  end.

Inductive Outcome : Type :=
| Resolved (data : json) (successfulToken : string)
| Rejected (e : Error).

(** How the [for] loop ends: by the [return] of line 142, or by running
    past the last candidate with [lastError] as it stands. *)
Inductive LoopExit : Type :=
| Returned (data : json) (successfulToken : string)
| Exhausted (lastError : option Error).

Section Call.

Variable env : Env.
Variable endpoint : string.
Variable requestBody : json.
Variable logContext : string.

(** The request of lines 124-131; [body] stands for
    [JSON.stringify(requestBody)]. *)
Definition postRequest (currentToken : AuthToken) : Request :=
  mkRequest endpoint "POST"
    [("Content-Type", "application/json");
     ("Authorization", "Bearer " ++ token currentToken)]
    requestBody.

(** Lines 117-118 *)
Definition isPersonal (currentToken : AuthToken) : bool :=
  String.eqb (createdAt currentToken) "personal".

Definition tokenIdentifier (i : nat) (currentToken : AuthToken) : W string :=
  if isPersonal currentToken then ret "Personal Token"
  else
    p <- getPersonalToken env ;;
    ret ("Shared Token #"
         ++ string_of_Z (Z.of_nat i - (match p with Some _ => 1 | None => 0 end) + 1)).

(** Lines 124-142, the [try] block: [Normal data] is the [return]. *)
Definition tryBlock (i : nat) (currentToken : AuthToken) (label : string)
  : W (Completion json) :=
  tell (Fetch (postRequest currentToken)) ;;;
  match fetch env i (postRequest currentToken) with
  | FetchRejects e => ret (Throw e)
  | FetchResponds st (Throw e) => ret (Throw e)
  | FetchResponds st (Normal data) =>
      tell (ConsoleLog ("[API Client] Response for " ++ logContext ++ " with " ++ label
                        ++ ". Status: " ++ string_of_nat st)) ;;;
      if negb (ok st) then ret (Throw (statusError data st))
      else
        tell (ConsoleLog ("✅ [API Client] Success for " ++ logContext ++ " with " ++ label)) ;;;
        ret (Normal data)
  end.

(** Lines 144-157, the [catch] block. *)
Definition catchBlock (n i : nat) (currentToken : AuthToken) (label : string)
  (err : Error) : W unit :=
  let errorMessage := message err in
  tell (ConsoleError ("❌ [API Client] " ++ label ++ " failed for " ++ logContext ++ ":")
          (StrArg errorMessage)) ;;;
  tell (AddLogEntry (mkLogEntry logContext (label ++ " failed") errorMessage 0
                       StatusError (Some errorMessage))) ;;;
  (if isPersonal currentToken then tell (Dispatch "personalTokenFailed") else ret tt) ;;;
  (if (i <? n - 1)%nat then tell (ConsoleLog "[API Client] Retrying with next token...")
   else ret tt).

(** Lines 116-157, one iteration of the loop over [n] candidates. *)
Definition attempt (n i : nat) (currentToken : AuthToken) : W (Completion json) :=
  label <- tokenIdentifier i currentToken ;;
  tell (ConsoleLog ("[API Client] Attempting " ++ logContext ++ " with " ++ label
                    ++ " (..." ++ sliceLast 6 (token currentToken) ++ ")")) ;;;
  tell (AddLogEntry (mkLogEntry logContext ("Attempt with " ++ label)
                       ("..." ++ sliceLast 6 (token currentToken)) 0 StatusSuccess None)) ;;;
  r <- tryBlock i currentToken label ;;
  match r with
  | Normal data => ret (Normal data)
  | Throw err => catchBlock n i currentToken label err ;;; ret (Throw err)
  end.

(** Lines 113-158: the loop from index [i] on, [rest] being
    [tokensToTry.slice(i)]. *)
Fixpoint loop (n i : nat) (rest : list AuthToken) (lastError : option Error)
  : W LoopExit :=
  match rest with
  | [] => ret (Exhausted lastError)
  | currentToken :: rest' =>
      r <- attempt n i currentToken ;;
      match r with
      | Normal data => ret (Returned data (token currentToken))
      | Throw err => loop n (S i) rest' (Some err)
      end
  end.

(** Lines 160-162. With [lastError] still [null], which the guard of line
    108 rules out, reading [lastError.message] would throw. *)
Definition exhausted (n : nat) (lastError : option Error) : W Outcome :=
  match lastError with
  | Some err =>
      tell (ConsoleError ("[API Client] All " ++ string_of_nat n ++ " tokens failed for "
                          ++ logContext ++ ". Final error:") (ErrArg err)) ;;;
      tell (AddLogEntry (mkLogEntry logContext "All available auth tokens failed."
                           ("Final error: " ++ message err) 0 StatusError
                           (Some (message err)))) ;;;
      ret (Rejected err)
  | None =>
      tell (ConsoleError ("[API Client] All " ++ string_of_nat n ++ " tokens failed for "
                          ++ logContext ++ ". Final error:") NullArg) ;;;
      ret (Rejected (typeError "Cannot read properties of null (reading 'message')"))
  end.

(** Lines 108-162, from the candidates on. *)
Definition runTokens (tokensToTry : list AuthToken) : W Outcome :=
  if (List.length tokensToTry =? 0)%nat then
    tell (ConsoleError ("[API Client] Aborting " ++ logContext
                        ++ ": No auth tokens available after all checks.") NoArg) ;;;
    ret (Rejected (newError ("Auth Token is required for " ++ logContext
                             ++ ". Please set one in Settings.")))
  else
    r <- loop (List.length tokensToTry) 0 tokensToTry None ;;
    match r with
    | Returned data successfulToken => ret (Resolved data successfulToken)
    | Exhausted lastError => exhausted (List.length tokensToTry) lastError
    end.

(** The result of a call: what the promise settles to, the session item
    afterwards, and everything the call did, in order. *)
Record Run := mkRun
  { outcome : Outcome; sessionAfter : SessionItem; trace : list Event }.

Definition fetchWithTokenRotation (specificToken : option string) : Run :=
  let built :=
    tell (ConsoleLog ("[API Client] Starting process for: " ++ logContext)) ;;;
    buildTokensToTry env logContext specificToken in
  let ran := runTokens (fst (fst built)) in
  mkRun (fst ran) (snd (fst built)) (snd built ++ snd ran)%list.

End Call.

(** ** Reading a trace *)

Definition requests (tr : list Event) : list Request :=
  flat_map (fun ev => match ev with Fetch r => [r] | _ => [] end) tr.

Definition audit (tr : list Event) : list LogEntry :=
  flat_map (fun ev => match ev with AddLogEntry l => [l] | _ => [] end) tr.

Definition dispatched (tr : list Event) : list string :=
  flat_map (fun ev => match ev with Dispatch s => [s] | _ => [] end) tr.

Definition refreshCalls (tr : list Event) : nat :=
  List.length (filter (fun ev => match ev with CallGetVeoAuthTokens => true | _ => false end) tr).

Definition sessionWrites (tr : list Event) : list (list AuthToken) :=
  flat_map (fun ev => match ev with SessionStorageSet _ v => [v] | _ => [] end) tr.

Definition storageReads (tr : list Event) : list string :=
  flat_map (fun ev => match ev with
                      | LocalStorageGet k | SessionStorageGet k => [k]
                      | _ => []
                      end) tr.

Definition isErrorEntry (l : LogEntry) : bool :=
  match status l with StatusError => true | StatusSuccess => false end.

Definition isSuccessEntry (l : LogEntry) : bool := negb (isErrorEntry l).

(** ** Attempts, seen from outside *)

(** How one attempt ends, as a function of what the network answered:
    success needs a response whose body parses and whose status is 2xx. *)
Definition settle (o : FetchOutcome) : Completion json :=
  match o with
  | FetchRejects e => Throw e
  | FetchResponds st (Throw e) => Throw e
  | FetchResponds st (Normal data) =>
      if ok st then Normal data else Throw (statusError data st)
  end.

Section Attempts.

Variable env : Env.
Variable endpoint : string.
Variable requestBody : json.
Variable logContext : string.

(** The error of the attempt made with candidate [c] as the [i]-th request,
    if it fails. *)
Definition attemptError (i : nat) (c : AuthToken) : option Error :=
  match settle (fetch env i (postRequest endpoint requestBody c)) with
  | Throw e => Some e
  | Normal _ => None
  end.

(** Every candidate of [rest], tried from request number [i] on, fails. *)
Fixpoint everyAttemptFails (i : nat) (rest : list AuthToken) : bool :=
  match rest with
  | [] => true
  | c :: rest' =>
      match attemptError i c with
      | Some _ => everyAttemptFails (S i) rest'
      | None => false
      end
  end.

Definition labelOf (i : nat) (c : AuthToken) : string :=
  fst (tokenIdentifier env i c).

Definition attemptEntry (i : nat) (c : AuthToken) : LogEntry :=
  mkLogEntry logContext ("Attempt with " ++ labelOf i c)
    ("..." ++ sliceLast 6 (token c)) 0 StatusSuccess None.

Definition failureEntry (i : nat) (c : AuthToken) (e : Error) : LogEntry :=
  mkLogEntry logContext (labelOf i c ++ " failed") (message e) 0 StatusError
    (Some (message e)).

Definition exhaustionEntry (e : Error) : LogEntry :=
  mkLogEntry logContext "All available auth tokens failed."
    ("Final error: " ++ message e) 0 StatusError (Some (message e)).

(** One failure entry per failing candidate, in trial order. *)
Fixpoint failureEntries (i : nat) (rest : list AuthToken) : list LogEntry :=
  match rest with
  | [] => []
  | c :: rest' =>
      (match attemptError i c with
       | Some e => [failureEntry i c e]
       | None => []
       end ++ failureEntries (S i) rest')%list
  end.

(** The candidates the loop tries and sees fail: those in front of the
    first one that succeeds. *)
Fixpoint failedCandidates (i : nat) (rest : list AuthToken) : list AuthToken :=
  match rest with
  | [] => []
  | c :: rest' =>
      match attemptError i c with
      | Some _ => c :: failedCandidates (S i) rest'
      | None => []
      end
  end.

(** The error [lastError] holds after [rest] has been tried and has failed
    throughout. *)
Fixpoint finalError (i : nat) (rest : list AuthToken) (le : option Error) : option Error :=
  match rest with
  | [] => le
  | c :: rest' => finalError (S i) rest' (attemptError i c)
  end.

End Attempts.

(** [tokensToTry] of a call. *)
Definition tokensToTry (env : Env) (logContext : string)
  (specificToken : option string) : list AuthToken :=
  fst (fst (buildTokensToTry env logContext specificToken)).

(** The personal token, when one is configured. *)
Definition personalToken (env : Env) : option AuthToken := fst (getPersonalToken env).

Definition personalList (env : Env) : list AuthToken :=
  match personalToken env with Some p => [p] | None => [] end.

(** The shared tokens as the session cache gives them. *)
Definition cachedShared (session : SessionItem) : list AuthToken :=
  fst (getSharedTokens session).

(** No shared token, cached or re-fetched, carries the marker that line 52
    reserves for the personal one. *)
Definition unmarked (l : list AuthToken) : bool :=
  forallb (fun c => negb (String.eqb (createdAt c) "personal")) l.

Definition sharedUnmarked (env : Env) : bool :=
  unmarked (cachedShared (sessionStorage_veoAuthTokens env))
  && match getVeoAuthTokens env with
     | Normal (Some l) => unmarked l
     | _ => true
     end.


Definition withRefresh (env : Env) (r : Completion (option (list AuthToken))) : Env :=
  mkEnv (localStorage_currentUser env) (sessionStorage_veoAuthTokens env) r
    (sessionStorage_setItem env) (fetch env).

(** ** Concrete calls *)

Module Scenario.

Definition S1 : AuthToken := mkToken "shared-token-000001" "2024-05-01T08:00:00Z".
Definition S2 : AuthToken := mkToken "shared-token-000002" "2024-05-01T09:00:00Z".
Definition P1 : AuthToken := mkToken "personal-token-0001" "personal".

Definition withPersonal : LocalItem :=
  LocalParsed (Some (mkUser (Some "personal-token-0001"))).

Definition quotaExceeded : json :=
  JObj [("error", JObj [("message", JStr "quota exceeded")])].
Definition resultOk : json := JObj [("result", JStr "ok")].

(** The first request is refused with HTTP 500, the second one succeeds. *)
Definition refuseThenAccept (k : nat) (r : Request) : FetchOutcome :=
  match k with
  | 0 => FetchResponds 500 (Normal quotaExceeded)
  | _ => FetchResponds 200 (Normal resultOk)
  end.

Definition refuseAll (k : nat) (r : Request) : FetchOutcome :=
  match k with
  | 0 => FetchResponds 500 (Normal quotaExceeded)
  | _ => FetchRejects (typeError "Failed to fetch")
  end.

Definition answer (st : nat) (data : json) (k : nat) (r : Request) : FetchOutcome :=
  FetchResponds st (Normal data).

(** A session store that takes what it is given, and one that is full. *)
Definition stores (v : list AuthToken) : Completion unit := Normal tt.

(** No personal token, two shared tokens cached: S1 is refused, S2 works. *)
Definition twoShared : Env :=
  mkEnv LocalMissing (SessionArray [S1; S2]) (Normal None) stores refuseThenAccept.

(** The same stores, with every request failing. *)
Definition twoSharedFailing : Env :=
  mkEnv LocalMissing (SessionArray [S1; S2]) (Normal None) stores refuseAll.

(** Nothing configured anywhere. *)
Definition nothing : Env :=
  mkEnv LocalMissing SessionMissing (Normal None) stores refuseAll.

(** A personal token and a cached shared one; the personal token is
    refused and the shared one works. *)
Definition personalAndShared : Env :=
  mkEnv withPersonal (SessionArray [S1]) (Normal None) stores refuseThenAccept.

(** A personal token, an empty cache and a re-fetch that delivers two
    tokens. *)
Definition refetching : Env :=
  mkEnv withPersonal SessionMissing (Normal (Some [S1; S2])) stores refuseThenAccept.

(** Only a personal token, and the network is down. *)
Definition personalOffline : Env :=
  mkEnv withPersonal SessionMissing (Normal (Some [])) stores
    (fun _ _ => FetchRejects (typeError "Failed to fetch")).


(** An empty cache and a re-fetch that delivers an empty list. *)
Definition refetchingNothing : Env :=
  mkEnv withPersonal SessionMissing (Normal (Some [])) stores refuseThenAccept.

(** A shared token stored with the marker of the personal one. *)
Definition M1 : AuthToken := mkToken "shared-token-000003" "personal".

Definition markedShared : Env :=
  mkEnv withPersonal (SessionArray [M1]) (Normal None) stores refuseAll.

Definition markedSharedOnly : Env :=
  mkEnv LocalMissing (SessionArray [M1]) (Normal None) stores refuseAll.

(** A refused request whose top-level message cannot be turned into a
    string. *)
Definition unprintable : json :=
  JObj [("message", JObj [("toString", JStr "no")])].

Definition unprintableBody : Env :=
  mkEnv LocalMissing (SessionArray [S1]) (Normal None) stores (answer 500 unprintable).

(** A personal token is configured and every request is refused. *)
Definition personalRefused : Env :=
  mkEnv withPersonal SessionMissing (Normal None) stores (answer 500 quotaExceeded).

(** Bodies of refused requests. *)
Definition emptyNested : json :=
  JObj [("error", JObj [("message", JStr "")]); ("message", JStr "model overloaded")].

Definition nullBody : Env :=
  mkEnv LocalMissing (SessionArray [S1]) (Normal None) stores (answer 500 JNull).

Definition emptyNestedBody : Env :=
  mkEnv LocalMissing (SessionArray [S1]) (Normal None) stores (answer 500 emptyNested).

End Scenario.

(** ** Redaction *)

Lemma substring_whole (s : string) :
  forall n : nat, String.length s <= n -> substring 0 n s = s.
Proof.
  induction s as [|a s IH]; intros [|n] H; cbn in *; try reflexivity; try lia.
  f_equal. apply IH. lia.
Qed.

Lemma substring_tail (s : string) :
  forall k n : nat,
    String.length s <= k + n ->
    exists pre, s = pre ++ substring k n s
                /\ String.length (substring k n s) = String.length s - k.
Proof.
  induction s as [|a s IH]; intros k n H.
  - exists "". destruct k, n; split; reflexivity.
  - destruct k as [|k].
    + exists "". rewrite substring_whole by exact H. split; [reflexivity|lia].
    + destruct (IH k n) as (pre & E & L); [cbn in H; lia|].
      exists (String a pre). cbn [substring String.length append].
      split; [now rewrite <- E|exact L].
Qed.

(** [s.slice(-n)] is the end of [s], [n] characters long unless [s] is
    shorter. *)
Lemma sliceLast_suffix (n : nat) (s : string) :
  exists pre, s = pre ++ sliceLast n s
              /\ String.length (sliceLast n s) = Nat.min n (String.length s).
Proof.
  unfold sliceLast.
  destruct (substring_tail s (String.length s - n) n) as (pre & E & L); [lia|].
  exists pre. split; [exact E|]. rewrite L. lia.
Qed.

(** ** Basic facts about traces *)

Lemma requests_app (a b : list Event) : requests (a ++ b) = (requests a ++ requests b)%list.
Proof. apply flat_map_app. Qed.

Lemma audit_app (a b : list Event) : audit (a ++ b) = (audit a ++ audit b)%list.
Proof. apply flat_map_app. Qed.

Lemma dispatched_app (a b : list Event) :
  dispatched (a ++ b) = (dispatched a ++ dispatched b)%list.
Proof. apply flat_map_app. Qed.

Lemma sessionWrites_app (a b : list Event) :
  sessionWrites (a ++ b) = (sessionWrites a ++ sessionWrites b)%list.
Proof. apply flat_map_app. Qed.

Lemma refreshCalls_app (a b : list Event) :
  refreshCalls (a ++ b) = refreshCalls a + refreshCalls b.
Proof. unfold refreshCalls. now rewrite filter_app, length_app. Qed.

(** The two store readers touch nothing but the console and their store. *)
Lemma getPersonalToken_quiet (env : Env) :
  requests (snd (getPersonalToken env)) = []
  /\ audit (snd (getPersonalToken env)) = []
  /\ dispatched (snd (getPersonalToken env)) = []
  /\ refreshCalls (snd (getPersonalToken env)) = 0
  /\ sessionWrites (snd (getPersonalToken env)) = [].
Proof.
  unfold getPersonalToken.
  destruct (localStorage_currentUser env) as [|e|[[[t|]]|]]; cbn;
    try destruct (String.eqb t ""); cbn; repeat split; reflexivity.
Qed.

Lemma getSharedTokens_quiet (s : SessionItem) :
  requests (snd (getSharedTokens s)) = []
  /\ audit (snd (getSharedTokens s)) = []
  /\ dispatched (snd (getSharedTokens s)) = []
  /\ refreshCalls (snd (getSharedTokens s)) = 0
  /\ sessionWrites (snd (getSharedTokens s)) = [].
Proof.
  unfold getSharedTokens.
  destruct s as [|e| |l]; cbn; try destruct l; cbn; repeat split; reflexivity.
Qed.

(** A personal token, when there is one, carries the marker and is not
    empty. *)
Lemma personalToken_marked (env : Env) (p : AuthToken) :
  personalToken env = Some p -> createdAt p = "personal" /\ token p <> "".
Proof.
  unfold personalToken, getPersonalToken.
  destruct (localStorage_currentUser env) as [|e|[[[t|]]|]]; cbn;
    try discriminate.
  destruct (String.eqb t "") eqn:E; cbn; intro H; inversion H; subst; cbn.
  split; [reflexivity|]. intro Ht. subst t. discriminate.
Qed.

(** ** One attempt *)

Section AttemptFacts.

Variable env : Env.
Variable endpoint : string.
Variable requestBody : json.
Variable logContext : string.

#[local] Abbreviation attempt' := (attempt env endpoint requestBody logContext).
#[local] Abbreviation postRequest' := (postRequest endpoint requestBody).
#[local] Abbreviation attemptError' := (attemptError env endpoint requestBody).
#[local] Abbreviation attemptEntry' := (attemptEntry env logContext).
#[local] Abbreviation failureEntry' := (failureEntry env logContext).

Arguments getPersonalToken : simpl never.
Arguments String.append : simpl never.
Arguments sliceLast : simpl never.
Arguments string_of_nat : simpl never.
Arguments string_of_Z : simpl never.
Arguments statusError : simpl never.

Lemma tokenIdentifier_quiet (i : nat) (c : AuthToken) :
  requests (snd (tokenIdentifier env i c)) = []
  /\ audit (snd (tokenIdentifier env i c)) = []
  /\ dispatched (snd (tokenIdentifier env i c)) = [].
Proof.
  unfold tokenIdentifier. destruct (isPersonal c); cbn.
  - repeat split; reflexivity.
  - rewrite app_nil_r. destruct (getPersonalToken_quiet env) as (H1 & H2 & H3 & _).
    repeat split; assumption.
Qed.

Ltac attempt_cases n i c :=
  unfold attempt, tryBlock, catchBlock, attemptError, settle, attemptEntry,
    failureEntry, labelOf;
  unfold bind, tell, ret; cbn [fst snd];
  destruct (fetch env i (postRequest' c)) as [?e|?st [?data|?e]];
  try destruct (ok _); destruct (isPersonal c) eqn:?; destruct (i <? n - 1)%nat;
  cbn [fst snd negb].

Lemma attempt_fst (n i : nat) (c : AuthToken) :
  fst (attempt' n i c) = settle (fetch env i (postRequest' c)).
Proof. attempt_cases n i c; reflexivity. Qed.

Lemma attempt_requests (n i : nat) (c : AuthToken) :
  requests (snd (attempt' n i c)) = [postRequest' c].
Proof.
  attempt_cases n i c; rewrite requests_app;
    destruct (tokenIdentifier_quiet i c) as (-> & _); reflexivity.
Qed.

Lemma attempt_audit (n i : nat) (c : AuthToken) :
  audit (snd (attempt' n i c)) =
  attemptEntry' i c :: match attemptError' i c with
                       | Some e => [failureEntry' i c e]
                       | None => []
                       end.
Proof.
  attempt_cases n i c; rewrite audit_app;
    destruct (tokenIdentifier_quiet i c) as (_ & -> & _); reflexivity.
Qed.

Lemma attempt_dispatched (n i : nat) (c : AuthToken) :
  dispatched (snd (attempt' n i c)) =
  match attemptError' i c with
  | Some _ => if isPersonal c then ["personalTokenFailed"] else []
  | None => []
  end.
Proof.
  attempt_cases n i c; rewrite dispatched_app;
    destruct (tokenIdentifier_quiet i c) as (_ & _ & ->); reflexivity.
Qed.

Lemma attempt_quiet (n i : nat) (c : AuthToken) :
  refreshCalls (snd (attempt' n i c)) = 0
  /\ sessionWrites (snd (attempt' n i c)) = [].
Proof.
  assert (Q : refreshCalls (snd (tokenIdentifier env i c)) = 0
              /\ sessionWrites (snd (tokenIdentifier env i c)) = []).
  { unfold tokenIdentifier. destruct (isPersonal c); cbn; [now split|].
    rewrite app_nil_r. destruct (getPersonalToken_quiet env) as (_ & _ & _ & H1 & H2).
    now split. }
  destruct Q as [Q1 Q2].
  attempt_cases n i c; rewrite refreshCalls_app, sessionWrites_app, Q1, Q2;
    split; reflexivity.
Qed.

End AttemptFacts.

(** ** The loop *)

Section LoopFacts.

Variable env : Env.
Variable endpoint : string.
Variable requestBody : json.
Variable logContext : string.

#[local] Abbreviation attempt' := (attempt env endpoint requestBody logContext).
#[local] Abbreviation loop' := (loop env endpoint requestBody logContext).
#[local] Abbreviation postRequest' := (postRequest endpoint requestBody).
#[local] Abbreviation attemptError' := (attemptError env endpoint requestBody).
#[local] Abbreviation everyAttemptFails' := (everyAttemptFails env endpoint requestBody).
#[local] Abbreviation finalError' := (finalError env endpoint requestBody).
#[local] Abbreviation failureEntries' := (failureEntries env endpoint requestBody logContext).

(** One turn of the loop, by the way its attempt ends. *)
Lemma loop_step (n i : nat) (c : AuthToken) (rest : list AuthToken) (le : option Error) :
  loop' n i (c :: rest) le =
  match settle (fetch env i (postRequest' c)) with
  | Normal data => (Returned data (token c), (snd (attempt' n i c) ++ [])%list)
  | Throw e => (fst (loop' n (S i) rest (Some e)),
                (snd (attempt' n i c) ++ snd (loop' n (S i) rest (Some e)))%list)
  end.
Proof.
  cbn [loop]. unfold bind. rewrite attempt_fst.
  destruct (settle (fetch env i (postRequest' c))); reflexivity.
Qed.

Lemma attemptError_settle (i : nat) (c : AuthToken) :
  settle (fetch env i (postRequest' c)) =
  match attemptError' i c with
  | Some e => Throw e
  | None => settle (fetch env i (postRequest' c))
  end.
Proof. unfold attemptError. destruct (settle _); reflexivity. Qed.

Lemma finalError_nth (rest : list AuthToken) :
  forall (i k : nat) (le : option Error) (c : AuthToken),
    nth_error rest k = Some c -> S k = List.length rest ->
    finalError' i rest le = attemptError' (i + k) c.
Proof.
  induction rest as [|c0 rest IH]; intros i k le c Hk Hlen; [discriminate Hlen|].
  destruct rest as [|c1 rest].
  - cbn in Hlen. assert (k = 0) by lia. subst k. cbn in Hk. inversion Hk; subst.
    cbn. now rewrite Nat.add_0_r.
  - destruct k as [|k]; [cbn in Hlen; lia|].
    cbn [nth_error] in Hk. cbn [List.length] in Hlen.
    change (finalError' i (c0 :: c1 :: rest) le)
      with (finalError' (S i) (c1 :: rest) (attemptError' i c0)).
    rewrite (IH (S i) k _ c Hk); [|cbn [List.length]; lia].
    f_equal. lia.
Qed.

(** When every candidate fails the loop runs to its end: one request and
    one failure entry per candidate, and [lastError] is the last one's. *)
Lemma loop_all_fail (n : nat) (rest : list AuthToken) :
  forall (i : nat) (le : option Error),
    everyAttemptFails' i rest = true ->
    fst (loop' n i rest le) = Exhausted (finalError' i rest le)
    /\ requests (snd (loop' n i rest le)) = map postRequest' rest
    /\ filter isErrorEntry (audit (snd (loop' n i rest le))) = failureEntries' i rest
    /\ List.length (failureEntries' i rest) = List.length rest.
Proof.
  induction rest as [|c rest IH]; intros i le H.
  - cbn. repeat split; reflexivity.
  - cbn [everyAttemptFails] in H.
    rewrite loop_step, attemptError_settle.
    cbn [failureEntries finalError].
    destruct (attemptError' i c) as [e|] eqn:E; [|discriminate H].
    destruct (IH (S i) (Some e) H) as (H1 & H2 & H3 & H4).
    cbn [fst snd]. rewrite requests_app, audit_app, filter_app.
    rewrite attempt_requests, attempt_audit, E, H1, H2, H3.
    cbn [map List.length app]. rewrite H4.
    repeat split; reflexivity.
Qed.

(** When the request made for the [k]-th remaining candidate is answered
    with a 2xx response whose body parses, the loop returns there. *)
Lemma loop_returns_at (n : nat) (rest : list AuthToken) :
  forall (i k : nat) (le : option Error) (c : AuthToken) (st : nat) (data : json),
    nth_error rest k = Some c ->
    k < List.length (requests (snd (loop' n i rest le))) ->
    fetch env (i + k) (postRequest' c) = FetchResponds st (Normal data) ->
    ok st = true ->
    fst (loop' n i rest le) = Returned data (token c)
    /\ requests (snd (loop' n i rest le)) = map postRequest' (firstn (S k) rest).
Proof.
  induction rest as [|c0 rest IH]; intros i k le c st data Hk Hreq Hfetch Hok.
  - destruct k; discriminate Hk.
  - rewrite loop_step in *.
    destruct k as [|k].
    + cbn in Hk. inversion Hk; subst c0. rewrite Nat.add_0_r in Hfetch.
      rewrite Hfetch. cbn [settle]. rewrite Hok. cbn [fst snd].
      rewrite app_nil_r, attempt_requests. split; reflexivity.
    + cbn [nth_error] in Hk.
      destruct (settle (fetch env i (postRequest' c0))) as [d0|e0] eqn:E0.
      * cbn [fst snd] in Hreq. rewrite app_nil_r, attempt_requests in Hreq.
        cbn in Hreq. lia.
      * cbn [fst snd] in *. rewrite requests_app, attempt_requests in *.
        cbn [app List.length] in Hreq.
        replace (i + S k) with (S i + k) in Hfetch by lia.
        destruct (IH (S i) k (Some e0) c st data Hk ltac:(lia) Hfetch Hok) as [H1 H2].
        rewrite H1, H2. split; reflexivity.
Qed.

(** One notification per failed candidate that carries the personal
    marker. *)
Lemma loop_dispatched (n : nat) (rest : list AuthToken) :
  forall (i : nat) (le : option Error),
    dispatched (snd (loop' n i rest le)) =
    map (fun _ => "personalTokenFailed")
      (filter (isPersonal) (failedCandidates env endpoint requestBody i rest)).
Proof.
  induction rest as [|c rest IH]; intros i le; [reflexivity|].
  rewrite loop_step. cbn [failedCandidates]. unfold attemptError at 1.
  destruct (settle (fetch env i (postRequest' c))) as [d|e] eqn:E; cbn [snd];
    rewrite dispatched_app, attempt_dispatched; unfold attemptError; rewrite E.
  - reflexivity.
  - cbn [filter]. rewrite IH. destruct (isPersonal c); reflexivity.
Qed.

Lemma everyAttemptFails_iff (rest : list AuthToken) :
  forall i : nat,
    everyAttemptFails' i rest = true <->
    (forall k c, nth_error rest k = Some c -> attemptError' (i + k) c <> None).
Proof.
  induction rest as [|c0 rest IH]; intro i.
  - split; [|reflexivity]. intros _ k c Hk. destruct k; discriminate Hk.
  - cbn [everyAttemptFails]. split.
    + intros H k c Hk.
      destruct (attemptError' i c0) as [e0|] eqn:E0; [|discriminate H].
      destruct k as [|k].
      * cbn in Hk. inversion Hk; subst c0. rewrite Nat.add_0_r, E0. discriminate.
      * replace (i + S k) with (S i + k) by lia. apply (proj1 (IH (S i)) H k c Hk).
    + intro H. pose proof (H 0 c0 eq_refl) as H0. rewrite Nat.add_0_r in H0.
      destruct (attemptError' i c0) as [e0|]; [|contradiction].
      apply IH. intros k c Hk. replace (S i + k) with (i + S k) by lia.
      apply H. exact Hk.
Qed.

(** Failing candidates that do not carry the personal marker publish
    nothing. *)
Lemma loop_dispatched_unmarked (n : nat) (rest : list AuthToken) :
  forall (i : nat) (le : option Error),
    unmarked rest = true -> dispatched (snd (loop' n i rest le)) = [].
Proof.
  induction rest as [|c rest IH]; intros i le H; [reflexivity|].
  cbn [unmarked forallb] in H. apply andb_prop in H. destruct H as [Hc Hrest].
  apply negb_true_iff in Hc. fold (isPersonal c) in Hc.
  rewrite loop_step.
  destruct (settle (fetch env i (postRequest' c))) as [d|e] eqn:E; cbn [snd];
    rewrite dispatched_app, attempt_dispatched, Hc;
    destruct (attemptError' i c); cbn [app]; try reflexivity;
    apply IH; exact Hrest.
Qed.

(** With the personal token in front, its failure publishes once, and its
    success nothing. *)
Lemma loop_dispatched_personal (n i : nat) (p : AuthToken) (rest : list AuthToken)
  (le : option Error) :
  isPersonal p = true -> unmarked rest = true ->
  dispatched (snd (loop' n i (p :: rest) le)) =
  match attemptError' i p with
  | Some _ => ["personalTokenFailed"]
  | None => []
  end.
Proof.
  intros Hp Hrest. rewrite loop_step.
  unfold attemptError.
  destruct (settle (fetch env i (postRequest' p))) as [d|e] eqn:E; cbn [snd];
    rewrite dispatched_app, attempt_dispatched, Hp; unfold attemptError; rewrite E.
  - reflexivity.
  - rewrite loop_dispatched_unmarked by exact Hrest. reflexivity.
Qed.

(** The loop neither re-fetches tokens nor writes the session store. *)
Lemma loop_quiet (n : nat) (rest : list AuthToken) :
  forall (i : nat) (le : option Error),
    refreshCalls (snd (loop' n i rest le)) = 0
    /\ sessionWrites (snd (loop' n i rest le)) = [].
Proof.
  induction rest as [|c rest IH]; intros i le; [split; reflexivity|].
  rewrite loop_step.
  destruct (attempt_quiet env endpoint requestBody logContext n i c) as [Q1 Q2].
  destruct (settle (fetch env i (postRequest' c))) as [d|e]; cbn [snd];
    rewrite refreshCalls_app, sessionWrites_app, Q1, Q2.
  - split; reflexivity.
  - destruct (IH (S i) (Some e)) as [-> ->]. split; reflexivity.
Qed.

End LoopFacts.

(** ** Candidate construction and the whole call *)

Section CallFacts.

Variable env : Env.
Variable endpoint : string.
Variable requestBody : json.
Variable logContext : string.

#[local] Abbreviation run' := (fetchWithTokenRotation env endpoint requestBody logContext).
#[local] Abbreviation runTokens' := (runTokens env endpoint requestBody logContext).
#[local] Abbreviation loop' := (loop env endpoint requestBody logContext).
#[local] Abbreviation exhausted' := (exhausted logContext).

Lemma given_false_rotates (specificToken : option string) :
  given specificToken = false ->
  buildTokensToTry env logContext specificToken = rotationTokens env logContext.
Proof.
  destruct specificToken as [t|]; cbn; [|reflexivity].
  destruct (String.eqb t ""); cbn; [reflexivity|discriminate].
Qed.

Lemma given_true_singleton (specificToken : option string) :
  given specificToken = true ->
  exists t, specificToken = Some t
            /\ buildTokensToTry env logContext specificToken =
               ([mkToken t "N/A"], sessionStorage_veoAuthTokens env, []).
Proof.
  destruct specificToken as [t|]; cbn; [|discriminate].
  destruct (String.eqb t ""); cbn; [discriminate|]. intros _. now exists t.
Qed.

Lemma refetch_quiet (sharedTokens : list AuthToken) :
  requests (snd (refetchSharedTokens env logContext sharedTokens)) = []
  /\ audit (snd (refetchSharedTokens env logContext sharedTokens)) = []
  /\ dispatched (snd (refetchSharedTokens env logContext sharedTokens)) = [].
Proof.
  unfold refetchSharedTokens.
  destruct (List.length sharedTokens =? 0)%nat; [|repeat split; reflexivity].
  destruct (getVeoAuthTokens env) as [[[|x l]|]|e]; cbn;
    try destruct (sessionStorage_setItem env (x :: l)); repeat split; reflexivity.
Qed.

Lemma build_quiet (specificToken : option string) :
  requests (snd (buildTokensToTry env logContext specificToken)) = []
  /\ audit (snd (buildTokensToTry env logContext specificToken)) = []
  /\ dispatched (snd (buildTokensToTry env logContext specificToken)) = [].
Proof.
  destruct (given specificToken) eqn:G.
  - destruct (given_true_singleton _ G) as (t & _ & ->). repeat split; reflexivity.
  - rewrite (given_false_rotates _ G). unfold rotationTokens, bind, ret. cbn [fst snd].
    rewrite !requests_app, !audit_app, !dispatched_app.
    destruct (getPersonalToken_quiet env) as (-> & -> & -> & _).
    destruct (getSharedTokens_quiet (sessionStorage_veoAuthTokens env)) as (-> & -> & -> & _).
    destruct (refetch_quiet (fst (getSharedTokens (sessionStorage_veoAuthTokens env))))
      as (-> & -> & ->).
    repeat split; reflexivity.
Qed.

Lemma run_outcome (specificToken : option string) :
  outcome (run' specificToken) = fst (runTokens' (tokensToTry env logContext specificToken)).
Proof. reflexivity. Qed.

Lemma run_session (specificToken : option string) :
  sessionAfter (run' specificToken) = snd (fst (buildTokensToTry env logContext specificToken)).
Proof. reflexivity. Qed.

Lemma run_trace (specificToken : option string) :
  trace (run' specificToken) =
  (ConsoleLog ("[API Client] Starting process for: " ++ logContext)
   :: snd (buildTokensToTry env logContext specificToken)
   ++ snd (runTokens' (tokensToTry env logContext specificToken)))%list.
Proof. reflexivity. Qed.

(** With at least one candidate the call is the loop, followed by lines
    160-162 when the loop runs out. *)
Lemma runTokens_nonempty (tokens : list AuthToken) :
  tokens <> [] ->
  runTokens' tokens =
  match fst (loop' (List.length tokens) 0 tokens None) with
  | Returned data successfulToken =>
      (Resolved data successfulToken,
       (snd (loop' (List.length tokens) 0 tokens None) ++ [])%list)
  | Exhausted lastError =>
      (fst (exhausted' (List.length tokens) lastError),
       (snd (loop' (List.length tokens) 0 tokens None)
        ++ snd (exhausted' (List.length tokens) lastError))%list)
  end.
Proof.
  intro H. unfold runTokens. destruct tokens as [|c tokens]; [contradiction|].
  cbn [List.length Nat.eqb]. unfold bind.
  destruct (fst (loop' (S (List.length tokens)) 0 (c :: tokens) None)); reflexivity.
Qed.

Lemma exhausted_quiet (n : nat) (le : option Error) :
  requests (snd (exhausted' n le)) = [] /\ dispatched (snd (exhausted' n le)) = []
  /\ refreshCalls (snd (exhausted' n le)) = 0 /\ sessionWrites (snd (exhausted' n le)) = [].
Proof. destruct le; repeat split; reflexivity. Qed.

Lemma runTokens_requests (tokens : list AuthToken) :
  requests (snd (runTokens' tokens)) =
  requests (snd (loop' (List.length tokens) 0 tokens None)).
Proof.
  destruct tokens as [|c tokens]; [reflexivity|].
  rewrite runTokens_nonempty by discriminate.
  destruct (fst (loop' _ 0 (c :: tokens) None)) as [d t|le]; cbn [snd];
    rewrite requests_app; [|destruct (exhausted_quiet (List.length (c :: tokens)) le) as (-> & _)];
    apply app_nil_r.
Qed.

Lemma runTokens_dispatched (tokens : list AuthToken) :
  dispatched (snd (runTokens' tokens)) =
  dispatched (snd (loop' (List.length tokens) 0 tokens None)).
Proof.
  destruct tokens as [|c tokens]; [reflexivity|].
  rewrite runTokens_nonempty by discriminate.
  destruct (fst (loop' _ 0 (c :: tokens) None)) as [d t|le]; cbn [snd];
    rewrite dispatched_app;
    [|destruct (exhausted_quiet (List.length (c :: tokens)) le) as (_ & -> & _)];
    apply app_nil_r.
Qed.

Lemma run_requests (specificToken : option string) :
  requests (trace (run' specificToken)) =
  requests (snd (loop' (List.length (tokensToTry env logContext specificToken)) 0
                   (tokensToTry env logContext specificToken) None)).
Proof.
  rewrite run_trace. change (?a :: ?b ++ ?c)%list with ([a] ++ b ++ c)%list.
  rewrite !requests_app, runTokens_requests.
  destruct (build_quiet specificToken) as (-> & _). reflexivity.
Qed.

Lemma run_dispatched (specificToken : option string) :
  dispatched (trace (run' specificToken)) =
  dispatched (snd (loop' (List.length (tokensToTry env logContext specificToken)) 0
                     (tokensToTry env logContext specificToken) None)).
Proof.
  rewrite run_trace. change (?a :: ?b ++ ?c)%list with ([a] ++ b ++ c)%list.
  rewrite !dispatched_app, runTokens_dispatched.
  destruct (build_quiet specificToken) as (_ & _ & ->). reflexivity.
Qed.

(** The notifications of a call: one per failed candidate that carries the
    personal marker. *)
Lemma run_dispatched_law (specificToken : option string) :
  dispatched (trace (run' specificToken)) =
  map (fun _ => "personalTokenFailed")
    (filter isPersonal
       (failedCandidates env endpoint requestBody 0
          (tokensToTry env logContext specificToken))).
Proof. rewrite run_dispatched. apply loop_dispatched. Qed.

Lemma run_audit (specificToken : option string) :
  audit (trace (run' specificToken)) =
  audit (snd (runTokens' (tokensToTry env logContext specificToken))).
Proof.
  rewrite run_trace. change (?a :: ?b ++ ?c)%list with ([a] ++ b ++ c)%list.
  rewrite !audit_app. destruct (build_quiet specificToken) as (_ & -> & _). reflexivity.
Qed.

Lemma everyAttemptFails_nth (rest : list AuthToken) :
  forall (i k : nat) (c : AuthToken),
    everyAttemptFails env endpoint requestBody i rest = true ->
    nth_error rest k = Some c ->
    exists e, attemptError env endpoint requestBody (i + k) c = Some e.
Proof.
  induction rest as [|c0 rest IH]; intros i k c H Hk; [destruct k; discriminate Hk|].
  cbn [everyAttemptFails] in H.
  destruct (attemptError env endpoint requestBody i c0) as [e0|] eqn:E0; [|discriminate H].
  destruct k as [|k].
  - cbn in Hk. inversion Hk; subst c0. rewrite Nat.add_0_r. now exists e0.
  - cbn [nth_error] in Hk. replace (i + S k) with (S i + k) by lia. now apply IH.
Qed.

Lemma refetch_tokens (sharedTokens : list AuthToken) :
  fst (refetchSharedTokens env logContext sharedTokens) =
  match sharedTokens, getVeoAuthTokens env with
  | [], Normal (Some (x :: l)) =>
      match sessionStorage_setItem env (x :: l) with
      | Normal _ => (x :: l, SessionArray (x :: l))
      | Throw _ => ([], sessionStorage_veoAuthTokens env)
      end
  | _, _ => (sharedTokens, sessionStorage_veoAuthTokens env)
  end.
Proof.
  unfold refetchSharedTokens. destruct sharedTokens as [|s0 sharedTokens]; [|reflexivity].
  destruct (getVeoAuthTokens env) as [[[|x l]|]|e]; try reflexivity.
  cbn. destruct (sessionStorage_setItem env (x :: l)); reflexivity.
Qed.

Lemma rotation_tokens (specificToken : option string) :
  given specificToken = false ->
  tokensToTry env logContext specificToken =
  (personalList env
   ++ fst (fst (refetchSharedTokens env logContext
                  (cachedShared (sessionStorage_veoAuthTokens env)))))%list
  /\ sessionAfter (fetchWithTokenRotation env endpoint requestBody logContext specificToken)
     = snd (fst (refetchSharedTokens env logContext
                   (cachedShared (sessionStorage_veoAuthTokens env)))).
Proof.
  intro G. rewrite run_session. unfold tokensToTry.
  rewrite (given_false_rotates _ G). split; reflexivity.
Qed.

Lemma shared_used_unmarked :
  sharedUnmarked env = true ->
  unmarked (fst (fst (refetchSharedTokens env logContext
                        (cachedShared (sessionStorage_veoAuthTokens env))))) = true.
Proof.
  unfold sharedUnmarked. intro H. apply andb_prop in H. destruct H as [H1 H2].
  rewrite refetch_tokens.
  destruct (cachedShared (sessionStorage_veoAuthTokens env)) as [|s0 l0]; [|exact H1].
  destruct (getVeoAuthTokens env) as [[[|x l]|]|e]; try reflexivity.
  destruct (sessionStorage_setItem env (x :: l)); [exact H2|reflexivity].
Qed.

Lemma explicit_run_dispatched (t : string) :
  given (Some t) = true ->
  dispatched (trace (fetchWithTokenRotation env endpoint requestBody logContext
                       (Some t))) = [].
Proof.
  intro G. destruct (given_true_singleton _ G) as (t' & Ht & E).
  inversion Ht; subst t'. rewrite run_dispatched. unfold tokensToTry. rewrite E.
  apply loop_dispatched_unmarked. reflexivity.
Qed.

Lemma runTokens_quiet (tokens : list AuthToken) :
  refreshCalls (snd (runTokens' tokens)) = 0
  /\ sessionWrites (snd (runTokens' tokens)) = [].
Proof.
  destruct tokens as [|c tokens]; [split; reflexivity|].
  rewrite runTokens_nonempty by discriminate.
  destruct (loop_quiet env endpoint requestBody logContext
              (List.length (c :: tokens)) (c :: tokens) 0 None) as [Q1 Q2].
  destruct (fst (loop' _ 0 (c :: tokens) None)) as [d t|le]; cbn [snd];
    rewrite refreshCalls_app, sessionWrites_app, Q1, Q2.
  - split; reflexivity.
  - destruct (exhausted_quiet (List.length (c :: tokens)) le) as (_ & _ & -> & ->).
    split; reflexivity.
Qed.

(** What the re-fetch does when the session gave no shared token. *)
Lemma refetch_empty_events :
  snd (refetchSharedTokens env logContext []) =
  (ConsoleLog ("[API Client] No shared tokens in session for " ++ logContext
               ++ ". Attempting re-fetch.")
   :: CallGetVeoAuthTokens
   :: match getVeoAuthTokens env with
      | Normal (Some (x :: l)) =>
          [SessionStorageSet "veoAuthTokens" (x :: l);
           match sessionStorage_setItem env (x :: l) with
           | Normal _ =>
               ConsoleLog ("[API Client] Successfully re-fetched "
                           ++ string_of_nat (List.length (x :: l)) ++ " shared tokens.")
           | Throw e =>
               ConsoleError "[API Client] Failed to re-fetch auth tokens:" (ErrArg e)
           end]
      | Normal _ => []
      | Throw e => [ConsoleError "[API Client] Failed to re-fetch auth tokens:" (ErrArg e)]
      end)%list.
Proof.
  unfold refetchSharedTokens. cbn [List.length Nat.eqb].
  destruct (getVeoAuthTokens env) as [[[|x l]|]|e]; try reflexivity.
  cbn. destruct (sessionStorage_setItem env (x :: l)); reflexivity.
Qed.

(** The events of candidate construction on the rotation path. *)
Lemma rotation_events (specificToken : option string) :
  given specificToken = false ->
  snd (buildTokensToTry env logContext specificToken) =
  (snd (getPersonalToken env)
   ++ snd (getSharedTokens (sessionStorage_veoAuthTokens env))
   ++ snd (refetchSharedTokens env logContext
             (cachedShared (sessionStorage_veoAuthTokens env))))%list.
Proof.
  intro G. rewrite (given_false_rotates _ G). unfold rotationTokens, bind, ret.
  cbn [fst snd]. now rewrite !app_nil_r.
Qed.

End CallFacts.


(** * The claims *)

Section Claims.

Variable env : Env.
Variable endpoint : string.
Variable requestBody : json.
Variable logContext : string.

(** C1. When the request issued for the [i]-th candidate is answered with
    a response whose body parses as JSON and whose status is 2xx, the call
    resolves with that body and that candidate's token, and the requests of
    the call are those for the candidates up to position [i]: none is
    issued for a later one. *)
Theorem first_success_returns (specificToken : option string) (i : nat)
  (c : AuthToken) (st : nat) (data : json) :
  nth_error (tokensToTry env logContext specificToken) i = Some c ->
  nth_error (requests (trace (fetchWithTokenRotation env endpoint requestBody logContext
                                specificToken))) i
    = Some (postRequest endpoint requestBody c) ->
  fetch env i (postRequest endpoint requestBody c) = FetchResponds st (Normal data) ->
  ok st = true ->
  outcome (fetchWithTokenRotation env endpoint requestBody logContext specificToken)
    = Resolved data (token c)
  /\ requests (trace (fetchWithTokenRotation env endpoint requestBody logContext
                        specificToken))
     = map (postRequest endpoint requestBody)
         (firstn (S i) (tokensToTry env logContext specificToken)).
Proof.
  intros Hnth Hreq Hfetch Hok.
  assert (Hne : tokensToTry env logContext specificToken <> []).
  { intro E. rewrite E in Hnth. destruct i; discriminate Hnth. }
  assert (Hlt : i < List.length (requests (trace (fetchWithTokenRotation env endpoint
                                                    requestBody logContext specificToken)))).
  { apply nth_error_Some. rewrite Hreq. discriminate. }
  rewrite run_requests in Hlt |- *.
  destruct (loop_returns_at env endpoint requestBody logContext _ _ 0 i None c st data
              Hnth Hlt Hfetch Hok) as [H1 H2].
  rewrite run_outcome, runTokens_nonempty, H1 by exact Hne.
  split; [reflexivity|exact H2].
Qed.

(** C2. When there is at least one candidate and every attempt fails, the
    call rejects with the error of the last candidate's attempt; the last
    thing it does is to record the exhaustion entry; and the error-status
    entries of the audit log are one per candidate, in trial order,
    followed by that exhaustion entry. *)
Theorem exhaustion_rejects_with_last_error (specificToken : option string) :
  tokensToTry env logContext specificToken <> [] ->
  everyAttemptFails env endpoint requestBody 0
    (tokensToTry env logContext specificToken) = true ->
  exists (c : AuthToken) (e : Error),
    nth_error (tokensToTry env logContext specificToken)
      (List.length (tokensToTry env logContext specificToken) - 1) = Some c
    /\ attemptError env endpoint requestBody
         (List.length (tokensToTry env logContext specificToken) - 1) c = Some e
    /\ outcome (fetchWithTokenRotation env endpoint requestBody logContext specificToken)
       = Rejected e
    /\ (exists tr,
          trace (fetchWithTokenRotation env endpoint requestBody logContext specificToken)
          = (tr ++ [AddLogEntry (exhaustionEntry logContext e)])%list)
    /\ filter isErrorEntry
         (audit (trace (fetchWithTokenRotation env endpoint requestBody logContext
                          specificToken)))
       = (failureEntries env endpoint requestBody logContext 0
            (tokensToTry env logContext specificToken)
          ++ [exhaustionEntry logContext e])%list
    /\ List.length (failureEntries env endpoint requestBody logContext 0
                      (tokensToTry env logContext specificToken))
       = List.length (tokensToTry env logContext specificToken).
Proof.
  intros Hne Hall.
  set (tokens := tokensToTry env logContext specificToken) in *.
  destruct (nth_error tokens (List.length tokens - 1)) as [c|] eqn:Hc.
  2:{ apply nth_error_None in Hc. destruct tokens; [contradiction|cbn in Hc; lia]. }
  destruct (everyAttemptFails_nth env endpoint requestBody tokens 0 _ c Hall Hc)
    as [e He].
  cbn [Nat.add] in He.
  destruct (loop_all_fail env endpoint requestBody logContext (List.length tokens)
              tokens 0 None Hall) as (H1 & _ & H3 & H4).
  assert (Hfin : finalError env endpoint requestBody 0 tokens None = Some e).
  { rewrite (finalError_nth env endpoint requestBody tokens 0 _ None c Hc); [exact He|].
    destruct tokens; [contradiction|cbn; lia]. }
  rewrite Hfin in H1.
  exists c, e. split; [reflexivity|]. split; [exact He|].
  rewrite run_outcome, run_audit, run_trace. fold tokens.
  rewrite (runTokens_nonempty env endpoint requestBody logContext tokens Hne), H1.
  cbn [exhausted fst snd bind tell ret]. repeat split.
  - eexists. rewrite !app_nil_r, !app_comm_cons, !app_assoc. reflexivity.
  - rewrite !audit_app, filter_app, H3. reflexivity.
  - exact H4.
Qed.

(** C3. When construction yields no candidate, the call rejects at once
    with the error whose message names [logContext]; no request is issued
    and nothing is recorded. Only a call without a usable explicit token
    can get there. *)
Theorem no_candidates_rejects_before_any_request (specificToken : option string) :
  tokensToTry env logContext specificToken = [] ->
  outcome (fetchWithTokenRotation env endpoint requestBody logContext specificToken)
    = Rejected (newError ("Auth Token is required for " ++ logContext
                          ++ ". Please set one in Settings."))
  /\ requests (trace (fetchWithTokenRotation env endpoint requestBody logContext
                        specificToken)) = []
  /\ audit (trace (fetchWithTokenRotation env endpoint requestBody logContext
                     specificToken)) = []
  /\ given specificToken = false.
Proof.
  intro H. rewrite run_outcome, run_requests, run_audit, H. repeat split.
  destruct (given specificToken) eqn:G; [|reflexivity].
  destruct (given_true_singleton env logContext _ G) as (t & _ & E).
  unfold tokensToTry in H. rewrite E in H. discriminate H.
Qed.

(** C4, as amended. An explicit token that is not the empty string is the
    only candidate; constructing the candidates then performs no effect at
    all (neither store is read, no re-fetch is made), and the whole call
    neither re-fetches shared tokens nor writes the session store. *)
Theorem explicit_token_bypasses_lookup (t : string) :
  given (Some t) = true ->
  tokensToTry env logContext (Some t) = [mkToken t "N/A"]
  /\ snd (buildTokensToTry env logContext (Some t)) = []
  /\ refreshCalls (trace (fetchWithTokenRotation env endpoint requestBody logContext
                            (Some t))) = 0
  /\ sessionWrites (trace (fetchWithTokenRotation env endpoint requestBody logContext
                             (Some t))) = []
  /\ sessionAfter (fetchWithTokenRotation env endpoint requestBody logContext (Some t))
     = sessionStorage_veoAuthTokens env.
Proof.
  intro G. destruct (given_true_singleton env logContext _ G) as (t' & Ht & E).
  inversion Ht; subst t'.
  rewrite run_session, run_trace. unfold tokensToTry. rewrite E. cbn [fst snd app].
  change (?a :: ?b)%list with ([a] ++ b)%list.
  rewrite refreshCalls_app, sessionWrites_app.
  rewrite (runTokens_nonempty env endpoint requestBody logContext [mkToken t "N/A"])
    by discriminate.
  destruct (loop_quiet env endpoint requestBody logContext 1 [mkToken t "N/A"] 0 None)
    as [Q1 Q2].
  destruct (fst (loop env endpoint requestBody logContext
                   (List.length [mkToken t "N/A"]) 0 [mkToken t "N/A"] None))
    as [d tk|le]; cbn [snd]; rewrite refreshCalls_app, sessionWrites_app.
  - cbn [List.length] in *. rewrite Q1, Q2. repeat split; reflexivity.
  - cbn [List.length] in *. rewrite Q1, Q2.
    destruct (exhausted_quiet logContext 1 le) as (_ & _ & -> & ->).
    repeat split; reflexivity.
Qed.

(** C10. The candidate that line 81 builds from an explicit token is not
    personal, whatever the token and also when it is the very string of
    the configured personal token: only the marker 'personal' in
    [createdAt] makes a candidate personal, and this one carries 'N/A'. So
    a call made with an explicit (non-empty) token, where that candidate is
    the only one, publishes no [personalTokenFailed], whatever becomes of
    the attempt. *)
Theorem explicit_token_never_notifies (t : string) :
  isPersonal (mkToken t "N/A") = false
  /\ (given (Some t) = true ->
      tokensToTry env logContext (Some t) = [mkToken t "N/A"]
      /\ dispatched (trace (fetchWithTokenRotation env endpoint requestBody logContext
                              (Some t))) = []).
Proof.
  split; [reflexivity|].
  intro G. destruct (given_true_singleton env logContext _ G) as (t' & Ht & E).
  inversion Ht; subst t'.
  split; [unfold tokensToTry; now rewrite E|].
  apply explicit_run_dispatched. exact G.
Qed.

(** C5, as amended. Provided no shared token, cached or re-fetched,
    carries the marker 'personal' in [createdAt]: when the
    personal token is among the candidates and its attempt fails, exactly
    one [personalTokenFailed] is published during the call, whatever the
    later candidates do; when its attempt succeeds, none is; and when it is
    not among the candidates (none configured, or an explicit token
    given), none is, however many shared candidates fail. *)
Theorem personal_failure_notifies_once (specificToken : option string) :
  sharedUnmarked env = true ->
  (forall p e, given specificToken = false -> personalToken env = Some p ->
     attemptError env endpoint requestBody 0 p = Some e ->
     dispatched (trace (fetchWithTokenRotation env endpoint requestBody logContext
                          specificToken)) = ["personalTokenFailed"])
  /\ (forall p, given specificToken = false -> personalToken env = Some p ->
        attemptError env endpoint requestBody 0 p = None ->
        dispatched (trace (fetchWithTokenRotation env endpoint requestBody logContext
                             specificToken)) = [])
  /\ (given specificToken = true \/ personalToken env = None ->
      dispatched (trace (fetchWithTokenRotation env endpoint requestBody logContext
                           specificToken)) = []).
Proof.
  intro U. pose proof (shared_used_unmarked env logContext U) as Us.
  assert (P : forall p, given specificToken = false -> personalToken env = Some p ->
            dispatched (trace (fetchWithTokenRotation env endpoint requestBody logContext
                                 specificToken)) =
            match attemptError env endpoint requestBody 0 p with
            | Some _ => ["personalTokenFailed"]
            | None => []
            end).
  { intros p G Hp. rewrite run_dispatched.
    destruct (rotation_tokens env endpoint requestBody logContext specificToken G) as [-> _].
    unfold personalList. rewrite Hp. cbn [app].
    apply loop_dispatched_personal; [|exact Us].
    unfold isPersonal. destruct (personalToken_marked env p Hp) as [-> _]. reflexivity. }
  split; [|split].
  - intros p e G Hp He. rewrite (P p G Hp), He. reflexivity.
  - intros p G Hp He. rewrite (P p G Hp), He. reflexivity.
  - intros [G|Hp].
    + destruct specificToken as [t|]; [|discriminate G].
      apply explicit_run_dispatched; exact G.
    + destruct (given specificToken) eqn:G.
      * destruct specificToken as [t|]; [|discriminate G].
        apply explicit_run_dispatched; exact G.
      * rewrite run_dispatched. destruct (rotation_tokens env endpoint requestBody logContext specificToken G) as [-> _].
        unfold personalList. rewrite Hp. cbn [app].
        apply loop_dispatched_unmarked. exact Us.
Qed.


(** C7, as amended. For a response whose body parses to a JSON value
    other than [null] and whose status is not 2xx, the attempt's error is
    [new Error(m)], where [m] is the string form of the nested
    [error.message] when that is truthy; otherwise, the nested field being
    absent or falsy, the string form of the top-level [message] when that
    is truthy; otherwise, both being absent or falsy, "API call failed
    (<status>)". This for a chosen value that has a string form, as every
    string, number and boolean has. When the body does not parse, the
    parse error is the attempt's error, whatever the status. *)
Theorem status_error_message_priority (n i : nat) (c : AuthToken) (st : nat) :
  (forall data,
     fetch env i (postRequest endpoint requestBody c) = FetchResponds st (Normal data) ->
     ok st = false -> data <> JNull ->
     (forall v s,
        optGet (field data "error") "message" = Some v -> truthy (Some v) = true ->
        toString v = Normal s ->
        fst (attempt env endpoint requestBody logContext n i c) = Throw (newError s))
     /\ (forall v s,
           truthy (optGet (field data "error") "message") = false ->
           field data "message" = Some v -> truthy (Some v) = true ->
           toString v = Normal s ->
           fst (attempt env endpoint requestBody logContext n i c) = Throw (newError s))
     /\ (truthy (optGet (field data "error") "message") = false ->
         truthy (field data "message") = false ->
         fst (attempt env endpoint requestBody logContext n i c)
         = Throw (newError ("API call failed (" ++ string_of_nat st ++ ")"))))
  /\ (forall e,
        fetch env i (postRequest endpoint requestBody c) = FetchResponds st (Throw e) ->
        fst (attempt env endpoint requestBody logContext n i c) = Throw e).
Proof.
  split.
  - intros data Hf Hok Hnull. rewrite attempt_fst, Hf. cbn [settle]. rewrite Hok.
    assert (G : forall k, get data k = Normal (field data k)).
    { intro k. destruct data; try reflexivity. contradiction. }
    unfold statusError, errorMessage. rewrite !G. cbn [cbind].
    split; [|split].
    + intros v s Hv Ht Hs. rewrite Hv. cbn [orElse]. rewrite Ht. cbn [cbind].
      now rewrite Hs.
    + intros v s Hn Hv Ht Hs. unfold orElse at 1.
      destruct (optGet (field data "error") "message") as [w|]; rewrite ?Hn; rewrite Hv;
        cbn [orElse]; rewrite Ht; cbn [cbind]; now rewrite Hs.
    + intros Hn Hm. unfold orElse at 1.
      destruct (optGet (field data "error") "message") as [w|]; rewrite ?Hn;
        unfold orElse; destruct (field data "message") as [m|]; rewrite ?Hm; reflexivity.
  - intros e Hf. rewrite attempt_fst, Hf. reflexivity.
Qed.

(** C8, as amended. Every attempt records exactly one entry, of status
    Success, before its request: in the trace of an attempt that entry
    comes right before the one [fetch], with no entry and no request in
    front of it. A failing attempt records exactly one more entry, of
    status Error, after the request, and a successful one nothing more. So
    a call with two candidates, the first refused by the remote service
    and the second accepted, records three entries: one Error and two
    Success. *)
Theorem attempt_records_entry_and_failure (specificToken : option string)
  (n i : nat) (c : AuthToken) :
  (exists pre post,
     snd (attempt env endpoint requestBody logContext n i c)
     = (pre ++ AddLogEntry (attemptEntry env logContext i c)
            :: Fetch (postRequest endpoint requestBody c) :: post)%list
     /\ audit pre = [] /\ requests pre = []
     /\ requests post = []
     /\ audit post = match attemptError env endpoint requestBody i c with
                     | Some e => [failureEntry env logContext i c e]
                     | None => []
                     end)
  /\ audit (snd (attempt env endpoint requestBody logContext n i c))
     = attemptEntry env logContext i c
       :: match attemptError env endpoint requestBody i c with
          | Some e => [failureEntry env logContext i c e]
          | None => []
          end
  /\ status (attemptEntry env logContext i c) = StatusSuccess
  /\ (forall c1 c2 st1 d1 st2 d2,
        tokensToTry env logContext specificToken = [c1; c2] ->
        fetch env 0 (postRequest endpoint requestBody c1) = FetchResponds st1 (Normal d1) ->
        ok st1 = false ->
        fetch env 1 (postRequest endpoint requestBody c2) = FetchResponds st2 (Normal d2) ->
        ok st2 = true ->
        audit (trace (fetchWithTokenRotation env endpoint requestBody logContext
                        specificToken))
        = [attemptEntry env logContext 0 c1;
           failureEntry env logContext 0 c1 (statusError d1 st1);
           attemptEntry env logContext 1 c2]
        /\ List.length (filter isErrorEntry
                          (audit (trace (fetchWithTokenRotation env endpoint requestBody
                                           logContext specificToken)))) = 1
        /\ List.length (filter isSuccessEntry
                          (audit (trace (fetchWithTokenRotation env endpoint requestBody
                                           logContext specificToken)))) = 2).
Proof.
  split; [|split; [apply attempt_audit|split; [reflexivity|]]].
  - exists (snd (tokenIdentifier env i c)
            ++ [ConsoleLog ("[API Client] Attempting " ++ logContext ++ " with "
                            ++ fst (tokenIdentifier env i c) ++ " (..."
                            ++ sliceLast 6 (token c) ++ ")")])%list.
    destruct (tokenIdentifier_quiet env i c) as (Q1 & Q2 & _).
    unfold attempt, tryBlock, catchBlock, attemptError, settle, failureEntry, labelOf.
    unfold bind, tell, ret. cbn [fst snd].
    destruct (fetch env i (postRequest endpoint requestBody c)) as [e|st [d|e]];
      try destruct (ok st); destruct (isPersonal c); destruct (i <? n - 1)%nat;
      cbn [fst snd negb];
      (eexists; split;
       [rewrite <- (app_assoc (snd (tokenIdentifier env i c)) [_] _); cbn [app];
        reflexivity
       |rewrite audit_app, requests_app, Q1, Q2; repeat split; reflexivity]).
  - intros c1 c2 st1 d1 st2 d2 Htok H1 Hok1 H2 Hok2.
    assert (E : audit (trace (fetchWithTokenRotation env endpoint requestBody logContext
                                specificToken))
                = [attemptEntry env logContext 0 c1;
                   failureEntry env logContext 0 c1 (statusError d1 st1);
                   attemptEntry env logContext 1 c2]).
    { rewrite run_audit, Htok, runTokens_nonempty by discriminate.
      cbn [List.length]. rewrite loop_step, H1. cbn [settle]. rewrite Hok1.
      cbn [fst snd]. rewrite loop_step, H2. cbn [settle]. rewrite Hok2. cbn [fst snd].
      rewrite !audit_app, !attempt_audit. unfold attemptError.
      rewrite H1, H2. cbn [settle]. rewrite Hok1, Hok2. reflexivity. }
    rewrite E. repeat split.
Qed.

End Claims.

(** ** Labels *)

Lemma label_personal (env : Env) (i : nat) (c : AuthToken) :
  isPersonal c = true -> labelOf env i c = "Personal Token".
Proof. unfold labelOf, tokenIdentifier. now intros ->. Qed.

Lemma label_shared (env : Env) (i : nat) (c : AuthToken) :
  isPersonal c = false ->
  labelOf env i c =
  "Shared Token #"
  ++ string_of_Z (Z.of_nat i - match personalToken env with Some _ => 1 | None => 0 end + 1).
Proof. unfold labelOf, tokenIdentifier. now intros ->. Qed.

(** On the rotation path the number in a shared token's label is its
    1-based position among the shared tokens: the personal token is not
    counted. *)
Lemma rotation_label_counts_shared_only (env : Env) (endpoint : string)
  (requestBody : json) (logContext : string) (specificToken : option string)
  (i : nat) (c : AuthToken) :
  given specificToken = false ->
  nth_error (tokensToTry env logContext specificToken) i = Some c ->
  isPersonal c = false ->
  exists k,
    nth_error (fst (fst (refetchSharedTokens env logContext
                           (cachedShared (sessionStorage_veoAuthTokens env))))) k = Some c
    /\ labelOf env i c = "Shared Token #" ++ string_of_Z (Z.of_nat k + 1).
Proof.
  intros G Hnth Hc.
  destruct (rotation_tokens env endpoint requestBody logContext specificToken G) as [E _].
  rewrite E in Hnth. rewrite (label_shared env i c Hc). unfold personalList in Hnth.
  destruct (personalToken env) as [p|] eqn:Hp.
  - destruct i as [|i].
    + cbn in Hnth. inversion Hnth; subst c.
      destruct (personalToken_marked env p Hp) as [Hm _].
      unfold isPersonal in Hc. rewrite Hm in Hc. discriminate Hc.
    + exists i. split; [exact Hnth|]. do 2 f_equal. lia.
  - exists i. split; [exact Hnth|]. do 2 f_equal. lia.
Qed.

(** With an explicit token the label is that of a shared token, numbered
    from the personal token the user happens to have configured. *)
Lemma explicit_label (env : Env) (t : string) :
  labelOf env 0 (mkToken t "N/A") =
  match personalToken env with
  | Some _ => "Shared Token #0"
  | None => "Shared Token #1"
  end.
Proof.
  rewrite label_shared by reflexivity. destruct (personalToken env); reflexivity.
Qed.

(** The entry recorded before a request shows the end of the token, six
    characters at most, after three dots. *)
Lemma attempt_entry_redacted (env : Env) (logContext : string) (i : nat) (c : AuthToken) :
  output (attemptEntry env logContext i c) = "..." ++ sliceLast 6 (token c)
  /\ exists pre, token c = pre ++ sliceLast 6 (token c)
                 /\ String.length (sliceLast 6 (token c))
                    = Nat.min 6 (String.length (token c)).
Proof. split; [reflexivity|apply sliceLast_suffix]. Qed.

(** C9, at the input where the code departs from it: a status check made
    with an explicit token while a personal token is configured. The entry
    recorded before the request redacts the token to its last six
    characters, and labels it shared token number 0, which is no 1-based
    position. *)
Theorem explicit_token_labelled_shared_zero :
  hd_error (audit (trace (fetchWithTokenRotation Scenario.personalRefused
                            "/api/veo/status" (JObj []) "VEO STATUS"
                            (Some "ya29.status-token-123456"))))
  = Some (mkLogEntry "VEO STATUS" "Attempt with Shared Token #0" "...123456" 0
            StatusSuccess None).
Proof. vm_compute. reflexivity. Qed.

(** The second scenario of the specification: the personal token fails
    with a network error, there is no shared token and the re-fetch
    delivers none. One notification, and the call rejects with the network
    error. *)
Example personal_only_network_failure :
  outcome (fetchWithTokenRotation Scenario.personalOffline "/api/veo" (JObj [])
             "VEO T2V" None) = Rejected (typeError "Failed to fetch")
  /\ dispatched (trace (fetchWithTokenRotation Scenario.personalOffline "/api/veo"
                          (JObj []) "VEO T2V" None)) = ["personalTokenFailed"]
  /\ refreshCalls (trace (fetchWithTokenRotation Scenario.personalOffline "/api/veo"
                            (JObj []) "VEO T2V" None)) = 1.
Proof. repeat split. Qed.

(** ** Counterexamples to the claims as first stated *)

(** C4 as stated fails for the empty string: it is an explicit token, yet
    the candidates come from the two stores, both of which are read. *)
Lemma empty_explicit_token_goes_through_lookup :
  tokensToTry Scenario.personalAndShared "VEO T2V" (Some "")
  = [Scenario.P1; Scenario.S1]
  /\ tokensToTry Scenario.personalAndShared "VEO T2V" (Some "") <> [mkToken "" "N/A"]
  /\ storageReads (snd (buildTokensToTry Scenario.personalAndShared "VEO T2V" (Some "")))
     = ["currentUser"; "veoAuthTokens"].
Proof. repeat split; try reflexivity. discriminate. Qed.

(** C7 as stated fails three times. A nested [error.message] that is
    present but empty is passed over for the top-level [message]; for the
    body [null], which parses and has neither field, the error is the
    TypeError of reading a property of [null], not the generic message;
    and a top-level [message] that is present but has no string form (an
    object with a [toString] property of its own) gives the TypeError of
    the failed conversion. *)
Lemma falsy_nested_message_and_null_body :
  fst (attempt Scenario.emptyNestedBody "/api/veo" (JObj []) "VEO T2V" 1 0 Scenario.S1)
  = Throw (newError "model overloaded")
  /\ fst (attempt Scenario.nullBody "/api/veo" (JObj []) "VEO T2V" 1 0 Scenario.S1)
     = Throw (typeError "Cannot read properties of null (reading 'error')")
  /\ typeError "Cannot read properties of null (reading 'error')"
     <> newError "API call failed (500)"
  /\ fst (attempt Scenario.unprintableBody "/api/veo" (JObj []) "VEO T2V" 1 0
            Scenario.S1)
     = Throw (typeError "Cannot convert object to primitive value").
Proof. repeat split; try reflexivity. discriminate. Qed.

(** C5 as stated fails when a shared token is stored with [createdAt]
    'personal': with the personal token and that shared token both
    failing, two events are published, not one; and with no personal token
    configured, the failure of that shared token publishes one. *)
Lemma marked_shared_token_notifies_too :
  dispatched (trace (fetchWithTokenRotation Scenario.markedShared "/api/veo" (JObj [])
                       "VEO T2V" None))
  = ["personalTokenFailed"; "personalTokenFailed"]
  /\ personalToken Scenario.markedSharedOnly = None
  /\ dispatched (trace (fetchWithTokenRotation Scenario.markedSharedOnly "/api/veo"
                          (JObj []) "VEO T2V" None))
     = ["personalTokenFailed"].
Proof. repeat split. Qed.


(** C8 as stated fails in its own scenario: the refused attempt records two
    entries, and the call three, two of them of status Success. *)
Lemma refused_then_accepted_records_three_entries :
  List.length (audit (snd (attempt Scenario.twoShared "/api/veo" (JObj []) "VEO T2V"
                             2 0 Scenario.S1))) = 2
  /\ map status (audit (trace (fetchWithTokenRotation Scenario.twoShared "/api/veo"
                                 (JObj []) "VEO T2V" None)))
     = [StatusSuccess; StatusError; StatusSuccess].
Proof. split; reflexivity. Qed.

(** ** The theorems at concrete calls *)

(** Two shared tokens, the first refused and the second accepted: the call
    resolves with the second token after two requests. *)
Lemma first_success_returns_witness :
  outcome (fetchWithTokenRotation Scenario.twoShared "/api/veo" (JObj []) "VEO T2V" None)
  = Resolved Scenario.resultOk (token Scenario.S2)
  /\ requests (trace (fetchWithTokenRotation Scenario.twoShared "/api/veo" (JObj [])
                        "VEO T2V" None))
     = map (postRequest "/api/veo" (JObj []))
         (firstn 2 (tokensToTry Scenario.twoShared "VEO T2V" None)).
Proof.
  apply (first_success_returns Scenario.twoShared "/api/veo" (JObj []) "VEO T2V" None
           1 Scenario.S2 200 Scenario.resultOk); reflexivity.
Defined.

(** Two shared tokens, both failing: the call rejects with the second
    one's error. *)
Lemma exhaustion_rejects_with_last_error_witness :
  exists (c : AuthToken) (e : Error),
    nth_error (tokensToTry Scenario.twoSharedFailing "VEO T2V" None)
      (List.length (tokensToTry Scenario.twoSharedFailing "VEO T2V" None) - 1) = Some c
    /\ attemptError Scenario.twoSharedFailing "/api/veo" (JObj [])
         (List.length (tokensToTry Scenario.twoSharedFailing "VEO T2V" None) - 1) c
       = Some e
    /\ outcome (fetchWithTokenRotation Scenario.twoSharedFailing "/api/veo" (JObj [])
                  "VEO T2V" None) = Rejected e
    /\ (exists tr,
          trace (fetchWithTokenRotation Scenario.twoSharedFailing "/api/veo" (JObj [])
                   "VEO T2V" None)
          = (tr ++ [AddLogEntry (exhaustionEntry "VEO T2V" e)])%list)
    /\ filter isErrorEntry
         (audit (trace (fetchWithTokenRotation Scenario.twoSharedFailing "/api/veo"
                          (JObj []) "VEO T2V" None)))
       = (failureEntries Scenario.twoSharedFailing "/api/veo" (JObj []) "VEO T2V" 0
            (tokensToTry Scenario.twoSharedFailing "VEO T2V" None)
          ++ [exhaustionEntry "VEO T2V" e])%list
    /\ List.length (failureEntries Scenario.twoSharedFailing "/api/veo" (JObj [])
                      "VEO T2V" 0 (tokensToTry Scenario.twoSharedFailing "VEO T2V" None))
       = List.length (tokensToTry Scenario.twoSharedFailing "VEO T2V" None).
Proof.
  apply (exhaustion_rejects_with_last_error Scenario.twoSharedFailing "/api/veo" (JObj [])
           "VEO T2V" None); [discriminate|reflexivity].
Defined.

(** Nothing configured and a re-fetch that delivers nothing. *)
Lemma no_candidates_rejects_before_any_request_witness :
  outcome (fetchWithTokenRotation Scenario.nothing "/api/veo" (JObj []) "VEO T2V" None)
  = Rejected (newError "Auth Token is required for VEO T2V. Please set one in Settings.")
  /\ requests (trace (fetchWithTokenRotation Scenario.nothing "/api/veo" (JObj [])
                        "VEO T2V" None)) = []
  /\ audit (trace (fetchWithTokenRotation Scenario.nothing "/api/veo" (JObj [])
                     "VEO T2V" None)) = []
  /\ given None = false.
Proof.
  apply (no_candidates_rejects_before_any_request Scenario.nothing "/api/veo" (JObj [])
           "VEO T2V" None); reflexivity.
Defined.

(** An explicit token, with a personal and a shared token available. *)
Lemma explicit_token_bypasses_lookup_witness :
  tokensToTry Scenario.personalAndShared "VEO STATUS" (Some "ya29.status-token-123456")
  = [mkToken "ya29.status-token-123456" "N/A"]
  /\ snd (buildTokensToTry Scenario.personalAndShared "VEO STATUS"
            (Some "ya29.status-token-123456")) = []
  /\ refreshCalls (trace (fetchWithTokenRotation Scenario.personalAndShared
                            "/api/veo/status" (JObj []) "VEO STATUS"
                            (Some "ya29.status-token-123456"))) = 0
  /\ sessionWrites (trace (fetchWithTokenRotation Scenario.personalAndShared
                             "/api/veo/status" (JObj []) "VEO STATUS"
                             (Some "ya29.status-token-123456"))) = []
  /\ sessionAfter (fetchWithTokenRotation Scenario.personalAndShared "/api/veo/status"
                     (JObj []) "VEO STATUS" (Some "ya29.status-token-123456"))
     = sessionStorage_veoAuthTokens Scenario.personalAndShared.
Proof.
  apply (explicit_token_bypasses_lookup Scenario.personalAndShared "/api/veo/status"
           (JObj []) "VEO STATUS" "ya29.status-token-123456"); reflexivity.
Defined.

(** The personal token is refused and the shared one accepted: one
    notification, though the call succeeds. *)
Lemma personal_failure_notifies_once_witness :
  dispatched (trace (fetchWithTokenRotation Scenario.personalAndShared "/api/veo"
                       (JObj []) "VEO T2V" None)) = ["personalTokenFailed"]
  /\ outcome (fetchWithTokenRotation Scenario.personalAndShared "/api/veo" (JObj [])
                "VEO T2V" None)
     = Resolved Scenario.resultOk (token Scenario.S1).
Proof.
  split; [|reflexivity].
  apply (proj1 (personal_failure_notifies_once Scenario.personalAndShared "/api/veo"
                  (JObj []) "VEO T2V" None eq_refl)
           Scenario.P1 (newError "quota exceeded")); reflexivity.
Defined.


(** The refusal of the specification's scenario: HTTP 500 with a nested
    error message. *)
Lemma status_error_message_priority_witness :
  fst (attempt Scenario.twoShared "/api/veo" (JObj []) "VEO T2V" 2 0 Scenario.S1)
  = Throw (newError "quota exceeded").
Proof.
  refine (proj1 (proj1 (status_error_message_priority Scenario.twoShared "/api/veo"
                          (JObj []) "VEO T2V" 2 0 Scenario.S1 500)
                   Scenario.quotaExceeded eq_refl eq_refl _)
            (JStr "quota exceeded") "quota exceeded" eq_refl eq_refl eq_refl).
  discriminate.
Defined.

(** The specification's scenario: S1 refused, S2 accepted. *)
Lemma attempt_records_entry_and_failure_witness :
  audit (trace (fetchWithTokenRotation Scenario.twoShared "/api/veo" (JObj [])
                  "VEO T2V" None))
  = [attemptEntry Scenario.twoShared "VEO T2V" 0 Scenario.S1;
     failureEntry Scenario.twoShared "VEO T2V" 0 Scenario.S1
       (statusError Scenario.quotaExceeded 500);
     attemptEntry Scenario.twoShared "VEO T2V" 1 Scenario.S2]
  /\ List.length (filter isErrorEntry
                    (audit (trace (fetchWithTokenRotation Scenario.twoShared "/api/veo"
                                     (JObj []) "VEO T2V" None)))) = 1
  /\ List.length (filter isSuccessEntry
                    (audit (trace (fetchWithTokenRotation Scenario.twoShared "/api/veo"
                                     (JObj []) "VEO T2V" None)))) = 2.
Proof.
  apply (proj2 (proj2 (proj2 (attempt_records_entry_and_failure Scenario.twoShared
                                "/api/veo" (JObj []) "VEO T2V" None 2 0 Scenario.S1)))
           Scenario.S1 Scenario.S2 500 Scenario.quotaExceeded 200 Scenario.resultOk);
    reflexivity.
Defined.

(** The explicit token is the very string configured as personal token,
    and its attempt fails: still no notification. *)
Lemma explicit_token_never_notifies_witness :
  tokensToTry Scenario.personalRefused "VEO STATUS" (Some "personal-token-0001")
  = [mkToken "personal-token-0001" "N/A"]
  /\ dispatched (trace (fetchWithTokenRotation Scenario.personalRefused "/api/veo/status"
                          (JObj []) "VEO STATUS" (Some "personal-token-0001"))) = [].
Proof.
  apply (proj2 (explicit_token_never_notifies Scenario.personalRefused "/api/veo/status"
                  (JObj []) "VEO STATUS" "personal-token-0001")); reflexivity.
Defined.

(** * Further properties of the client *)

(** The environment with another session item, as a later call finds it. *)
Definition withSession (env : Env) (s : SessionItem) : Env :=
  mkEnv (localStorage_currentUser env) s (getVeoAuthTokens env)
    (sessionStorage_setItem env) (fetch env).

(** What an entry of the log can be: the entry of an attempt, or the
    failure entry of one. *)
Definition entryOf (env : Env) (logContext : string) (tokens : list AuthToken)
  (l : LogEntry) : Prop :=
  exists i c, nth_error tokens i = Some c
              /\ (l = attemptEntry env logContext i c
                  \/ exists e, l = failureEntry env logContext i c e).

(** ** The loop, in general *)

Section LoopShape.

Variable env : Env.
Variable endpoint : string.
Variable requestBody : json.
Variable logContext : string.

#[local] Abbreviation attempt' := (attempt env endpoint requestBody logContext).
#[local] Abbreviation loop' := (loop env endpoint requestBody logContext).
#[local] Abbreviation postRequest' := (postRequest endpoint requestBody).
#[local] Abbreviation attemptError' := (attemptError env endpoint requestBody).
#[local] Abbreviation everyAttemptFails' := (everyAttemptFails env endpoint requestBody).
#[local] Abbreviation failedCandidates' := (failedCandidates env endpoint requestBody).

Lemma settle_normal (o : FetchOutcome) (data : json) :
  settle o = Normal data -> exists st, o = FetchResponds st (Normal data) /\ ok st = true.
Proof.
  destruct o as [e|st [d|e]]; cbn; try discriminate.
  destruct (ok st) eqn:E; [|discriminate]. intro H. inversion H; subst. now exists st.
Qed.

Lemma attemptError_none (i : nat) (c : AuthToken) :
  attemptError' i c = None ->
  exists st data, fetch env i (postRequest' c) = FetchResponds st (Normal data)
                  /\ ok st = true.
Proof.
  unfold attemptError. destruct (settle (fetch env i (postRequest' c))) as [d|e] eqn:E;
    [|discriminate].
  intros _. destruct (settle_normal _ _ E) as (st & H1 & H2). now exists st, d.
Qed.

Lemma failedCandidates_all (rest : list AuthToken) :
  forall i : nat, everyAttemptFails' i rest = true -> failedCandidates' i rest = rest.
Proof.
  induction rest as [|c rest IH]; intros i H; [reflexivity|].
  cbn [everyAttemptFails failedCandidates] in *.
  destruct (attemptError' i c); [|discriminate H]. now rewrite IH.
Qed.

(** When not every candidate fails, the loop returns at the first one
    that succeeds. *)
Lemma loop_first_success (n : nat) (rest : list AuthToken) :
  forall (i : nat) (le : option Error),
    everyAttemptFails' i rest = false ->
    exists k c st data,
      nth_error rest k = Some c
      /\ everyAttemptFails' i (firstn k rest) = true
      /\ failedCandidates' i rest = firstn k rest
      /\ fetch env (i + k) (postRequest' c) = FetchResponds st (Normal data)
      /\ ok st = true
      /\ fst (loop' n i rest le) = Returned data (token c)
      /\ requests (snd (loop' n i rest le)) = map postRequest' (firstn (S k) rest).
Proof.
  induction rest as [|c0 rest IH]; intros i le H; [discriminate H|].
  cbn [everyAttemptFails failedCandidates] in *. rewrite loop_step.
  destruct (attemptError' i c0) as [e0|] eqn:E0.
  - destruct (IH (S i) (Some e0) H) as (k & c & st & d & H1 & H2 & H3 & H4 & H5 & H6 & H7).
    exists (S k), c, st, d.
    unfold attemptError in E0.
    destruct (settle (fetch env i (postRequest' c0))) as [d0|e0'] eqn:S0; [discriminate E0|].
    inversion E0; subst e0'. cbn [fst snd firstn everyAttemptFails nth_error].
    unfold attemptError. rewrite S0, H2, H3, H6, requests_app, attempt_requests, H7.
    replace (i + S k) with (S i + k) by lia. repeat split; assumption.
  - destruct (attemptError_none i c0 E0) as (st & d & Hf & Hok).
    exists 0, c0, st, d. rewrite Nat.add_0_r, Hf. cbn [settle]. rewrite Hok.
    cbn [fst snd firstn]. rewrite app_nil_r, attempt_requests. repeat split; assumption.
Qed.

(** One Success entry per request, one Error entry per failed candidate. *)
Lemma loop_audit_counts (n : nat) (rest : list AuthToken) :
  forall (i : nat) (le : option Error),
    List.length (filter isSuccessEntry (audit (snd (loop' n i rest le))))
    = List.length (requests (snd (loop' n i rest le)))
    /\ List.length (filter isErrorEntry (audit (snd (loop' n i rest le))))
       = List.length (failedCandidates' i rest).
Proof.
  induction rest as [|c rest IH]; intros i le; [split; reflexivity|].
  rewrite loop_step. cbn [failedCandidates]. unfold attemptError at 1.
  destruct (settle (fetch env i (postRequest' c))) as [d|e] eqn:E; cbn [snd];
    rewrite audit_app, requests_app, !filter_app, !length_app, attempt_requests,
      attempt_audit; unfold attemptError; rewrite E.
  - split; reflexivity.
  - destruct (IH (S i) (Some e)) as [-> ->]. split; reflexivity.
Qed.

(** Every entry the loop records is the entry of an attempt on one of its
    candidates, or the failure entry of one. *)
Lemma loop_audit_entries (n : nat) (rest : list AuthToken) :
  forall (i : nat) (le : option Error) (l : LogEntry),
    In l (audit (snd (loop' n i rest le))) ->
    exists k c, nth_error rest k = Some c
                /\ (l = attemptEntry env logContext (i + k) c
                    \/ exists e, l = failureEntry env logContext (i + k) c e).
Proof.
  induction rest as [|c rest IH]; intros i le l Hin; [contradiction|].
  rewrite loop_step in Hin.
  assert (Hhere : In l (audit (snd (attempt' n i c))) ->
                  exists k c', nth_error (c :: rest) k = Some c'
                    /\ (l = attemptEntry env logContext (i + k) c'
                        \/ exists e, l = failureEntry env logContext (i + k) c' e)).
  { rewrite attempt_audit. intros [H|H].
    - exists 0, c. rewrite Nat.add_0_r. split; [reflexivity|]. left. now symmetry.
    - destruct (attemptError' i c) as [e|]; [|contradiction].
      destruct H as [H|[]]. exists 0, c. rewrite Nat.add_0_r.
      split; [reflexivity|]. right. exists e. now symmetry. }
  destruct (settle (fetch env i (postRequest' c))) as [d|e]; cbn [snd] in Hin;
    rewrite audit_app in Hin; apply in_app_or in Hin; destruct Hin as [Hin|Hin].
  - now apply Hhere.
  - contradiction.
  - now apply Hhere.
  - destruct (IH (S i) (Some e) l Hin) as (k & c' & H1 & H2).
    exists (S k), c'. replace (i + S k) with (S i + k) by lia. split; assumption.
Qed.

End LoopShape.

(** ** The call, in general *)

Section CallShape.

Variable env : Env.
Variable endpoint : string.
Variable requestBody : json.
Variable logContext : string.

Lemma exhausted_rejects (n : nat) (le : option Error) :
  exists e, fst (exhausted logContext n le) = Rejected e
            /\ (forall e', le = Some e' -> e = e').
Proof.
  destruct le as [e|]; eexists; (split; [reflexivity|]); intros e' H;
    [now inversion H|discriminate H].
Qed.

Lemma exhausted_audit (n : nat) (e : Error) :
  audit (snd (exhausted logContext n (Some e))) = [exhaustionEntry logContext e].
Proof. reflexivity. Qed.

(** X1. The requests of a call are those for an initial segment of the
    candidates, in trial order: each is a POST to the endpoint with the
    candidate's token as bearer and the caller's body, no candidate is
    asked twice or out of turn, and the first candidate, when there is
    one, is always asked. *)
Theorem requests_follow_the_candidates (specificToken : option string) :
  exists k,
    k <= List.length (tokensToTry env logContext specificToken)
    /\ requests (trace (fetchWithTokenRotation env endpoint requestBody logContext
                          specificToken))
       = map (postRequest endpoint requestBody)
           (firstn k (tokensToTry env logContext specificToken))
    /\ (k = 0 <-> tokensToTry env logContext specificToken = []).
Proof.
  rewrite run_requests.
  set (tokens := tokensToTry env logContext specificToken).
  destruct (everyAttemptFails env endpoint requestBody 0 tokens) eqn:A.
  - destruct (loop_all_fail env endpoint requestBody logContext (List.length tokens)
                tokens 0 None A) as (_ & H & _).
    exists (List.length tokens). rewrite firstn_all. split; [lia|]. split; [exact H|].
    split; [apply length_zero_iff_nil|now intros ->].
  - destruct (loop_first_success env endpoint requestBody logContext (List.length tokens)
                tokens 0 None A) as (k & c & st & d & H1 & _ & _ & _ & _ & _ & H7).
    exists (S k). split; [|split; [exact H7|]].
    + assert (k < List.length tokens) by (apply nth_error_Some; rewrite H1; discriminate).
      lia.
    + split; [discriminate|]. intro E. rewrite E in H1. destruct k; discriminate H1.
Qed.

(** X2. A call that resolves does so with the body and the token of an
    attempt that really succeeded: some candidate, all candidates before it
    having failed, was answered with a 2xx status and that body, and its
    request was the last one issued. *)
Theorem resolved_by_the_first_working_candidate (specificToken : option string)
  (data : json) (successfulToken : string) :
  outcome (fetchWithTokenRotation env endpoint requestBody logContext specificToken)
  = Resolved data successfulToken ->
  exists i c st,
    nth_error (tokensToTry env logContext specificToken) i = Some c
    /\ successfulToken = token c
    /\ fetch env i (postRequest endpoint requestBody c) = FetchResponds st (Normal data)
    /\ ok st = true
    /\ everyAttemptFails env endpoint requestBody 0
         (firstn i (tokensToTry env logContext specificToken)) = true
    /\ requests (trace (fetchWithTokenRotation env endpoint requestBody logContext
                          specificToken))
       = map (postRequest endpoint requestBody)
           (firstn (S i) (tokensToTry env logContext specificToken)).
Proof.
  rewrite run_outcome, run_requests.
  set (tokens := tokensToTry env logContext specificToken).
  destruct tokens as [|c0 rest] eqn:T; [discriminate|].
  rewrite runTokens_nonempty by discriminate.
  destruct (everyAttemptFails env endpoint requestBody 0 (c0 :: rest)) eqn:A.
  - destruct (loop_all_fail env endpoint requestBody logContext (List.length (c0 :: rest))
                (c0 :: rest) 0 None A) as (H & _). rewrite H.
    destruct (exhausted_rejects (List.length (c0 :: rest))
                (finalError env endpoint requestBody 0 (c0 :: rest) None)) as (e & -> & _).
    discriminate.
  - destruct (loop_first_success env endpoint requestBody logContext
                (List.length (c0 :: rest)) (c0 :: rest) 0 None A)
      as (k & c & st & d & H1 & H2 & _ & H4 & H5 & H6 & H7).
    rewrite H6. cbn [fst]. intro E. inversion E; subst.
    exists k, c, st. repeat split; assumption.
Qed.

(** X3. A call rejects in two cases only: there is no candidate, and the
    error is the one that asks for a token in Settings; or every candidate
    was asked and failed, and the error is the one of the last attempt. *)
Theorem rejected_without_a_working_candidate (specificToken : option string)
  (e : Error) :
  outcome (fetchWithTokenRotation env endpoint requestBody logContext specificToken)
  = Rejected e ->
  (tokensToTry env logContext specificToken = []
   /\ e = newError ("Auth Token is required for " ++ logContext
                    ++ ". Please set one in Settings."))
  \/ (everyAttemptFails env endpoint requestBody 0
        (tokensToTry env logContext specificToken) = true
      /\ (exists c,
            nth_error (tokensToTry env logContext specificToken)
              (List.length (tokensToTry env logContext specificToken) - 1) = Some c
            /\ attemptError env endpoint requestBody
                 (List.length (tokensToTry env logContext specificToken) - 1) c = Some e)
      /\ List.length (requests (trace (fetchWithTokenRotation env endpoint requestBody
                                         logContext specificToken)))
         = List.length (tokensToTry env logContext specificToken)).
Proof.
  rewrite run_outcome, run_requests.
  set (tokens := tokensToTry env logContext specificToken).
  destruct tokens as [|c0 rest] eqn:T.
  - cbn. intro E. inversion E. now left.
  - rewrite runTokens_nonempty by discriminate. intro H. right.
    destruct (everyAttemptFails env endpoint requestBody 0 (c0 :: rest)) eqn:A.
    + destruct (loop_all_fail env endpoint requestBody logContext
                  (List.length (c0 :: rest)) (c0 :: rest) 0 None A) as (H1 & H2 & _).
      rewrite H1, H2 in *. rewrite length_map. split; [reflexivity|]. split; [|reflexivity].
      replace (List.length (c0 :: rest) - 1) with (List.length rest) by (cbn; lia).
      destruct (nth_error (c0 :: rest) (List.length rest)) as [c|] eqn:Hc.
      2:{ apply nth_error_None in Hc. cbn in Hc. lia. }
      destruct (everyAttemptFails_nth env endpoint requestBody (c0 :: rest) 0 _ c A Hc)
        as [e' He'].
      rewrite (finalError_nth env endpoint requestBody (c0 :: rest) 0 (List.length rest)
                 None c Hc eq_refl) in H.
      cbn [Nat.add] in *. rewrite He' in H. cbn in H. inversion H; subst e'.
      now exists c.
    + destruct (loop_first_success env endpoint requestBody logContext
                  (List.length (c0 :: rest)) (c0 :: rest) 0 None A)
        as (k & c & st & d & _ & _ & _ & _ & _ & H6 & _).
      rewrite H6 in H. discriminate H.
Qed.

End CallShape.

(** ** The audit log of a call *)

Section AuditShape.

Variable env : Env.
Variable endpoint : string.
Variable requestBody : json.
Variable logContext : string.

(** The entries of a call: those of its attempts, and at the end the
    exhaustion entry when every candidate failed. *)
Lemma run_audit_entries (specificToken : option string) (l : LogEntry) :
  In l (audit (trace (fetchWithTokenRotation env endpoint requestBody logContext
                        specificToken))) ->
  entryOf env logContext (tokensToTry env logContext specificToken) l
  \/ exists e, l = exhaustionEntry logContext e.
Proof.
  rewrite run_audit.
  set (tokens := tokensToTry env logContext specificToken).
  destruct tokens as [|c0 rest] eqn:T; [contradiction|].
  rewrite runTokens_nonempty by discriminate.
  assert (L : In l (audit (snd (loop env endpoint requestBody logContext
                                  (List.length (c0 :: rest)) 0 (c0 :: rest) None))) ->
              entryOf env logContext (c0 :: rest) l).
  { intro Hin. apply loop_audit_entries in Hin.
    destruct Hin as (k & c & H1 & H2). now exists k, c. }
  destruct (fst (loop env endpoint requestBody logContext (List.length (c0 :: rest)) 0
                   (c0 :: rest) None)) as [d tk|[e|]];
    cbn [snd]; rewrite audit_app; intro Hin; apply in_app_or in Hin;
    destruct Hin as [Hin|Hin]; try (left; now apply L); try contradiction.
  rewrite exhausted_audit in Hin. destruct Hin as [<-|[]]. right. now exists e.
Qed.

(** X4. Every entry a call records carries the caller's context as its
    model and a token count of 0, and has an error text exactly when its
    status is Error. *)
Theorem audit_entries_keep_the_books (specificToken : option string) (l : LogEntry) :
  In l (audit (trace (fetchWithTokenRotation env endpoint requestBody logContext
                        specificToken))) ->
  model l = logContext
  /\ tokenCount l = 0
  /\ (status l = StatusError <-> error l <> None).
Proof.
  intro Hin. apply run_audit_entries in Hin.
  destruct Hin as [(i & c & _ & [->|[e ->]])|[e ->]]; cbn;
    repeat split; try discriminate; try reflexivity; intro H; now contradiction H.
Qed.

Lemma finalError_some (rest : list AuthToken) :
  forall (i : nat) (le : option Error),
    everyAttemptFails env endpoint requestBody i rest = true ->
    (rest = [] -> le <> None) ->
    exists e, finalError env endpoint requestBody i rest le = Some e.
Proof.
  induction rest as [|c rest IH]; intros i le A Hle.
  - cbn. destruct le as [e|]; [now exists e|]. now contradiction (Hle eq_refl).
  - cbn [everyAttemptFails finalError] in *.
    destruct (attemptError env endpoint requestBody i c) as [e0|]; [|discriminate A].
    apply IH; [exact A|]. intros _. discriminate.
Qed.

(** X5. A call records one Success entry per request it issues, and one
    Error entry per candidate that failed, plus one when it gives up
    after trying. *)
Theorem audit_entries_count_the_attempts (specificToken : option string) :
  List.length (filter isSuccessEntry
                 (audit (trace (fetchWithTokenRotation env endpoint requestBody logContext
                                  specificToken))))
  = List.length (requests (trace (fetchWithTokenRotation env endpoint requestBody
                                    logContext specificToken)))
  /\ List.length (filter isErrorEntry
                    (audit (trace (fetchWithTokenRotation env endpoint requestBody
                                     logContext specificToken))))
     = List.length (failedCandidates env endpoint requestBody 0
                      (tokensToTry env logContext specificToken))
       + match outcome (fetchWithTokenRotation env endpoint requestBody logContext
                          specificToken),
               tokensToTry env logContext specificToken with
         | Rejected _, _ :: _ => 1
         | _, _ => 0
         end.
Proof.
  rewrite run_audit, run_requests, run_outcome.
  set (tokens := tokensToTry env logContext specificToken).
  destruct tokens as [|c0 rest] eqn:T; [split; reflexivity|].
  rewrite runTokens_nonempty by discriminate.
  destruct (loop_audit_counts env endpoint requestBody logContext
              (List.length (c0 :: rest)) (c0 :: rest) 0 None) as [C1 C2].
  destruct (everyAttemptFails env endpoint requestBody 0 (c0 :: rest)) eqn:A.
  - destruct (loop_all_fail env endpoint requestBody logContext
                (List.length (c0 :: rest)) (c0 :: rest) 0 None A) as (H1 & _).
    rewrite H1.
    destruct (finalError_some (c0 :: rest) 0 None A) as [e ->]; [discriminate|].
    cbn [fst snd exhausted bind tell ret]. rewrite !audit_app, !filter_app, !length_app,
      C1, C2. cbn. split; lia.
  - destruct (loop_first_success env endpoint requestBody logContext
                (List.length (c0 :: rest)) (c0 :: rest) 0 None A)
      as (k & c & st & d & _ & _ & _ & _ & _ & H6 & _).
    rewrite H6. cbn [fst snd]. rewrite !app_nil_r, C1, C2. split; lia.
Qed.

(** X6. The entry recorded for an attempt never shows more of the token
    than its last six characters: the output of every Success entry is
    three dots followed by the end of one candidate's token, nine
    characters at most. *)
Theorem attempt_entries_show_six_characters_at_most (specificToken : option string)
  (l : LogEntry) :
  In l (audit (trace (fetchWithTokenRotation env endpoint requestBody logContext
                        specificToken))) ->
  status l = StatusSuccess ->
  exists c pre,
    In c (tokensToTry env logContext specificToken)
    /\ token c = pre ++ sliceLast 6 (token c)
    /\ output l = "..." ++ sliceLast 6 (token c)
    /\ String.length (output l) <= 9.
Proof.
  intros Hin Hs. apply run_audit_entries in Hin.
  destruct Hin as [(i & c & Hc & [->|[e ->]])|[e ->]]; try discriminate Hs.
  destruct (sliceLast_suffix 6 (token c)) as (pre & E & L).
  exists c, pre. split; [now apply nth_error_In in Hc|]. split; [exact E|].
  split; [reflexivity|]. cbn [output attemptEntry]. cbn [append String.length].
  rewrite L. lia.
Qed.

End AuditShape.

(** ** The session cache across calls *)

(** The shared tokens a call on the rotation path ends up with: the cached
    ones, or the re-fetched ones when the cache gave none. *)
Definition sharedTokensUsed (env : Env) (logContext : string) : list AuthToken :=
  fst (fst (refetchSharedTokens env logContext
              (cachedShared (sessionStorage_veoAuthTokens env)))).

Section CacheShape.

Variable env : Env.
Variable endpoint : string.
Variable requestBody : json.
Variable logContext : string.

Lemma refetch_nonempty_events (s0 : AuthToken) (shared : list AuthToken) :
  refetchSharedTokens env logContext (s0 :: shared)
  = (s0 :: shared, sessionStorage_veoAuthTokens env, []).
Proof. reflexivity. Qed.

Lemma run_quiet_after_build (specificToken : option string) :
  refreshCalls (trace (fetchWithTokenRotation env endpoint requestBody logContext
                         specificToken))
  = refreshCalls (snd (buildTokensToTry env logContext specificToken))
  /\ sessionWrites (trace (fetchWithTokenRotation env endpoint requestBody logContext
                             specificToken))
     = sessionWrites (snd (buildTokensToTry env logContext specificToken)).
Proof.
  rewrite run_trace. change (?a :: ?b ++ ?c)%list with ([a] ++ b ++ c)%list.
  rewrite !refreshCalls_app, !sessionWrites_app.
  destruct (runTokens_quiet env endpoint requestBody logContext
              (tokensToTry env logContext specificToken)) as [-> ->].
  rewrite app_nil_r. cbn. split; [lia|reflexivity].
Qed.

Lemma rotation_build_quiet (specificToken : option string) :
  given specificToken = false ->
  refreshCalls (snd (buildTokensToTry env logContext specificToken))
  = refreshCalls (snd (refetchSharedTokens env logContext
                         (cachedShared (sessionStorage_veoAuthTokens env))))
  /\ sessionWrites (snd (buildTokensToTry env logContext specificToken))
     = sessionWrites (snd (refetchSharedTokens env logContext
                             (cachedShared (sessionStorage_veoAuthTokens env)))).
Proof.
  intro G. rewrite (rotation_events env logContext specificToken G).
  rewrite !refreshCalls_app, !sessionWrites_app.
  destruct (getPersonalToken_quiet env) as (_ & _ & _ & -> & ->).
  destruct (getSharedTokens_quiet (sessionStorage_veoAuthTokens env))
    as (_ & _ & _ & -> & ->).
  split; reflexivity.
Qed.

(** X7. A call calls [sessionStorage.setItem] at most once, and only with
    a non-empty list of tokens that a re-fetch has just delivered, the
    cache having given none. When that write goes through, the session item
    is that list afterwards; when it throws, and when no write is made, the
    item is left as it was. An empty list is never written. *)
Theorem session_cache_written_once_at_most (specificToken : option string) :
  (sessionWrites (trace (fetchWithTokenRotation env endpoint requestBody logContext
                           specificToken)) = []
   /\ sessionAfter (fetchWithTokenRotation env endpoint requestBody logContext
                      specificToken) = sessionStorage_veoAuthTokens env)
  \/ (exists x l,
        given specificToken = false
        /\ cachedShared (sessionStorage_veoAuthTokens env) = []
        /\ getVeoAuthTokens env = Normal (Some (x :: l))
        /\ sessionWrites (trace (fetchWithTokenRotation env endpoint requestBody
                                   logContext specificToken)) = [x :: l]
        /\ sessionAfter (fetchWithTokenRotation env endpoint requestBody logContext
                           specificToken)
           = match sessionStorage_setItem env (x :: l) with
             | Normal _ => SessionArray (x :: l)
             | Throw _ => sessionStorage_veoAuthTokens env
             end).
Proof.
  destruct (run_quiet_after_build specificToken) as [_ ->].
  destruct (given specificToken) eqn:G.
  - left. destruct (given_true_singleton env logContext _ G) as (t & _ & E).
    rewrite run_session, E. split; reflexivity.
  - destruct (rotation_build_quiet specificToken G) as [_ ->].
    destruct (rotation_tokens env endpoint requestBody logContext specificToken G)
      as [_ ->].
    destruct (cachedShared (sessionStorage_veoAuthTokens env)) as [|s0 shared] eqn:C.
    + rewrite refetch_empty_events, refetch_tokens.
      destruct (getVeoAuthTokens env) as [[[|x l]|]|e] eqn:R;
        try (left; split; reflexivity).
      right. exists x, l.
      destruct (sessionStorage_setItem env (x :: l)); repeat split; reflexivity.
    + left. rewrite refetch_nonempty_events. split; reflexivity.
Qed.

Lemma nonempty_cache_call (specificToken : option string) :
  given specificToken = false ->
  cachedShared (sessionStorage_veoAuthTokens env) <> [] ->
  tokensToTry env logContext specificToken
  = (personalList env ++ cachedShared (sessionStorage_veoAuthTokens env))%list
  /\ refreshCalls (trace (fetchWithTokenRotation env endpoint requestBody logContext
                            specificToken)) = 0
  /\ sessionWrites (trace (fetchWithTokenRotation env endpoint requestBody logContext
                             specificToken)) = []
  /\ sessionAfter (fetchWithTokenRotation env endpoint requestBody logContext
                     specificToken) = sessionStorage_veoAuthTokens env.
Proof.
  intros G C.
  destruct (run_quiet_after_build specificToken) as [-> ->].
  destruct (rotation_build_quiet specificToken G) as [-> ->].
  destruct (rotation_tokens env endpoint requestBody logContext specificToken G)
    as [-> ->].
  destruct (cachedShared (sessionStorage_veoAuthTokens env)) as [|s0 shared];
    [contradiction|].
  rewrite refetch_nonempty_events. repeat split.
Qed.

(** X8. When the session cache holds shared tokens, a call on the rotation
    path makes no re-fetch and no write: the candidates are the personal
    token, if configured, followed by the cached tokens in their order. *)
Theorem cached_tokens_are_used_as_they_are (specificToken : option string) :
  given specificToken = false ->
  cachedShared (sessionStorage_veoAuthTokens env) <> [] ->
  tokensToTry env logContext specificToken
  = (personalList env ++ cachedShared (sessionStorage_veoAuthTokens env))%list
  /\ refreshCalls (trace (fetchWithTokenRotation env endpoint requestBody logContext
                            specificToken)) = 0
  /\ sessionWrites (trace (fetchWithTokenRotation env endpoint requestBody logContext
                             specificToken)) = []
  /\ sessionAfter (fetchWithTokenRotation env endpoint requestBody logContext
                     specificToken) = sessionStorage_veoAuthTokens env.
Proof. exact (nonempty_cache_call specificToken). Qed.

(** X9. On the rotation path a configured personal token has priority: it
    is the first candidate, and the first request of the call is the one
    that carries it, and it is not empty. *)
Theorem personal_token_is_asked_first (specificToken : option string) (p : AuthToken) :
  given specificToken = false ->
  personalToken env = Some p ->
  tokensToTry env logContext specificToken = (p :: sharedTokensUsed env logContext)%list
  /\ hd_error (requests (trace (fetchWithTokenRotation env endpoint requestBody logContext
                                  specificToken)))
     = Some (mkRequest endpoint "POST"
               [("Content-Type", "application/json");
                ("Authorization", "Bearer " ++ token p)] requestBody)
  /\ token p <> "".
Proof.
  intros G Hp.
  destruct (rotation_tokens env endpoint requestBody logContext specificToken G)
    as [E _].
  unfold personalList in E. rewrite Hp in E. cbn [app] in E.
  split; [exact E|]. split; [|exact (proj2 (personalToken_marked env p Hp))].
  rewrite run_requests, E, loop_step.
  destruct (settle (fetch env 0 (postRequest endpoint requestBody p))); cbn [snd];
    rewrite requests_app, attempt_requests; reflexivity.
Qed.

End CacheShape.

Section SecondCall.

Variable env : Env.
Variable endpoint : string.
Variable requestBody : json.
Variable logContext : string.

(** X10. What a call on the rotation path leaves in the session cache
    serves the next one: called again on the session as the first call
    left it, the client works out the same candidates; and when the first
    call ended up with shared tokens, the second finds them cached and makes
    no re-fetch, whatever a re-fetch would answer by then. *)
Theorem next_call_finds_the_tokens_cached (specificToken : option string) :
  given specificToken = false ->
  tokensToTry
    (withSession env
       (sessionAfter (fetchWithTokenRotation env endpoint requestBody logContext
                        specificToken)))
    logContext specificToken
  = tokensToTry env logContext specificToken
  /\ (sharedTokensUsed env logContext <> [] ->
      forall r,
        tokensToTry
          (withRefresh
             (withSession env
                (sessionAfter (fetchWithTokenRotation env endpoint requestBody logContext
                                 specificToken))) r)
          logContext specificToken
        = tokensToTry env logContext specificToken
        /\ refreshCalls
             (trace (fetchWithTokenRotation
                       (withRefresh
                          (withSession env
                             (sessionAfter (fetchWithTokenRotation env endpoint
                                              requestBody logContext specificToken))) r)
                       endpoint requestBody logContext specificToken)) = 0).
Proof.
  intro G.
  destruct (rotation_tokens env endpoint requestBody logContext specificToken G)
    as [T1 S1].
  rewrite S1, T1. unfold sharedTokensUsed. rewrite refetch_tokens.
  assert (Same : forall used,
            fst (fst (refetchSharedTokens env logContext
                        (cachedShared (sessionStorage_veoAuthTokens env)))) = used ->
            tokensToTry (withSession env (sessionStorage_veoAuthTokens env)) logContext
              specificToken = (personalList env ++ used)%list).
  { intros used <-.
    destruct (rotation_tokens (withSession env (sessionStorage_veoAuthTokens env))
                endpoint requestBody logContext specificToken G) as [-> _].
    reflexivity. }
  rewrite refetch_tokens in Same.
  destruct (cachedShared (sessionStorage_veoAuthTokens env)) as [|s0 shared] eqn:C.
  - destruct (getVeoAuthTokens env) as [[[|x l]|]|e] eqn:R;
      [|destruct (sessionStorage_setItem env (x :: l)) as [u|e] eqn:W| |];
      cbn [fst snd] in *;
      try (split; [now apply Same|intro H; now contradiction H]).
    split.
    + destruct (rotation_tokens (withSession env (SessionArray (x :: l))) endpoint
                  requestBody logContext specificToken G) as [-> _]. reflexivity.
    + intros _ r.
      destruct (nonempty_cache_call
                  (withRefresh (withSession env (SessionArray (x :: l))) r)
                  endpoint requestBody logContext specificToken G)
        as (H1 & H2 & _); [discriminate|].
      rewrite H1, H2. split; reflexivity.
  - cbn [fst snd] in *. split; [now apply Same|].
    intros _ r.
    destruct (nonempty_cache_call
                (withRefresh (withSession env (sessionStorage_veoAuthTokens env)) r)
                endpoint requestBody logContext specificToken G)
      as (H1 & H2 & _).
    + cbn [withRefresh withSession sessionStorage_veoAuthTokens]. rewrite C.
      discriminate.
    + rewrite H1, H2. cbn [withRefresh withSession sessionStorage_veoAuthTokens].
      rewrite C. split; reflexivity.
Qed.

End SecondCall.

(** ** Notifications, labels and store reads *)

Lemma storageReads_app (a b : list Event) :
  storageReads (a ++ b) = (storageReads a ++ storageReads b)%list.
Proof. apply flat_map_app. Qed.

Lemma getPersonalToken_reads (env : Env) :
  storageReads (snd (getPersonalToken env)) = ["currentUser"].
Proof.
  unfold getPersonalToken.
  destruct (localStorage_currentUser env) as [|e|[[[t|]]|]]; cbn;
    try destruct (String.eqb t ""); reflexivity.
Qed.

Section Observations.

Variable env : Env.
Variable endpoint : string.
Variable requestBody : json.
Variable logContext : string.

(** An attempt reads the local store once, to number a token that is not
    personal, and no store otherwise. *)
Lemma attempt_reads (n i : nat) (c : AuthToken) :
  storageReads (snd (attempt env endpoint requestBody logContext n i c))
  = if isPersonal c then [] else ["currentUser"].
Proof.
  assert (Q : storageReads (snd (tokenIdentifier env i c))
              = if isPersonal c then [] else ["currentUser"]).
  { unfold tokenIdentifier. destruct (isPersonal c); [reflexivity|].
    unfold bind, ret. cbn [fst snd]. now rewrite app_nil_r, getPersonalToken_reads. }
  unfold attempt, tryBlock, catchBlock. unfold bind, tell, ret. cbn [fst snd].
  rewrite storageReads_app, Q.
  destruct (fetch env i (postRequest endpoint requestBody c)) as [e|st [d|e]];
    try destruct (ok st); destruct (isPersonal c); destruct (i <? n - 1)%nat;
    reflexivity.
Qed.

(** X11. A call publishes one [personalTokenFailed] for each candidate that
    failed and carries the marker 'personal' in [createdAt], and nothing
    else: candidates that were not reached, that succeeded, or that carry
    another [createdAt] publish nothing. *)
Theorem one_notification_per_failed_personal_candidate (specificToken : option string) :
  dispatched (trace (fetchWithTokenRotation env endpoint requestBody logContext
                       specificToken))
  = map (fun _ => "personalTokenFailed")
      (filter isPersonal
         (failedCandidates env endpoint requestBody 0
            (tokensToTry env logContext specificToken))).
Proof. apply run_dispatched_law. Qed.

(** X12. On the rotation path, with no shared token carrying the marker
    'personal', the candidates are labelled by origin and position: the
    personal token, when configured, is candidate 0 and is labelled
    Personal Token, and the [k]-th shared token (counting from 0) is
    labelled Shared Token # followed by [k + 1] in decimal, whether or not
    a personal token precedes it. *)
Theorem rotation_labels_follow_origin (specificToken : option string) (i : nat)
  (c : AuthToken) :
  given specificToken = false ->
  sharedUnmarked env = true ->
  nth_error (tokensToTry env logContext specificToken) i = Some c ->
  (personalToken env = Some c /\ i = 0 /\ labelOf env i c = "Personal Token")
  \/ (exists k,
        i = List.length (personalList env) + k
        /\ nth_error (sharedTokensUsed env logContext) k = Some c
        /\ labelOf env i c = "Shared Token #" ++ string_of_Z (Z.of_nat k + 1)).
Proof.
  intros G U Hnth.
  destruct (rotation_tokens env endpoint requestBody logContext specificToken G) as [E _].
  rewrite E in Hnth. fold (sharedTokensUsed env logContext) in Hnth.
  pose proof (shared_used_unmarked env logContext U) as Us.
  fold (sharedTokensUsed env logContext) in Us.
  assert (Hshared : forall k, nth_error (sharedTokensUsed env logContext) k = Some c ->
                              isPersonal c = false).
  { intros k Hk. apply nth_error_In in Hk. unfold unmarked in Us.
    rewrite forallb_forall in Us. apply Us in Hk. now apply negb_true_iff in Hk. }
  unfold personalList in *.
  destruct (personalToken env) as [p|] eqn:Hp.
  - destruct i as [|i]; cbn [app nth_error] in Hnth.
    + inversion Hnth; subst c. left. repeat split.
      apply label_personal. unfold isPersonal.
      now rewrite (proj1 (personalToken_marked env p Hp)).
    + right. exists i. split; [reflexivity|]. split; [exact Hnth|].
      rewrite (label_shared env (S i) c (Hshared i Hnth)), Hp.
      do 2 f_equal. lia.
  - right. exists i. cbn [app List.length Nat.add] in *. split; [reflexivity|].
    split; [exact Hnth|].
    rewrite (label_shared env i c (Hshared i Hnth)), Hp. do 2 f_equal. lia.
Qed.

End Observations.

Section StoreReads.

Variable env : Env.
Variable endpoint : string.
Variable requestBody : json.
Variable logContext : string.

Lemma getSharedTokens_reads (s : SessionItem) :
  storageReads (snd (getSharedTokens s)) = ["veoAuthTokens"].
Proof. destruct s as [|e| |[|x l]]; reflexivity. Qed.

Lemma refetch_reads (shared : list AuthToken) :
  storageReads (snd (refetchSharedTokens env logContext shared)) = [].
Proof.
  unfold refetchSharedTokens. destruct shared as [|s0 shared]; [|reflexivity].
  cbn [List.length Nat.eqb]. destruct (getVeoAuthTokens env) as [[[|x l]|]|e];
    try reflexivity.
  cbn. destruct (sessionStorage_setItem env (x :: l)); reflexivity.
Qed.

Lemma loop_reads (n : nat) (rest : list AuthToken) :
  forall (i : nat) (le : option Error),
    exists k, k <= List.length rest
              /\ storageReads (snd (loop env endpoint requestBody logContext n i rest le))
                 = repeat "currentUser" k.
Proof.
  induction rest as [|c rest IH]; intros i le; [now exists 0|].
  rewrite loop_step.
  destruct (settle (fetch env i (postRequest endpoint requestBody c))) as [d|e];
    cbn [snd]; rewrite storageReads_app, attempt_reads.
  - destruct (isPersonal c); [exists 0|exists 1]; cbn; split; try lia; reflexivity.
  - destruct (IH (S i) (Some e)) as (k & Hk & ->).
    destruct (isPersonal c); [exists k|exists (S k)]; cbn [List.length]; split; try lia;
      reflexivity.
Qed.

Lemma runTokens_reads (tokens : list AuthToken) :
  exists k, k <= List.length tokens
            /\ storageReads (snd (runTokens env endpoint requestBody logContext tokens))
               = repeat "currentUser" k.
Proof.
  destruct tokens as [|c tokens]; [now exists 0|].
  rewrite runTokens_nonempty by discriminate.
  destruct (loop_reads (List.length (c :: tokens)) (c :: tokens) 0 None) as (k & Hk & E).
  exists k. split; [exact Hk|].
  destruct (fst (loop env endpoint requestBody logContext (List.length (c :: tokens)) 0
                   (c :: tokens) None)) as [d t|[e|]];
    cbn [snd]; rewrite storageReads_app, E; apply app_nil_r.
Qed.

(** X13. Which stores a call reads. With an explicit token the session
    store is never read, and the local store once, for the label of the one
    attempt. On the rotation path the local store and then the session
    store are read once each to build the candidates, after which the
    session store is not read again, and the local store at most once per
    candidate. *)
Theorem stores_read_by_a_call (specificToken : option string) :
  (given specificToken = true ->
   storageReads (trace (fetchWithTokenRotation env endpoint requestBody logContext
                          specificToken)) = ["currentUser"])
  /\ (given specificToken = false ->
      exists k,
        k <= List.length (tokensToTry env logContext specificToken)
        /\ storageReads (trace (fetchWithTokenRotation env endpoint requestBody
                                  logContext specificToken))
           = "currentUser" :: "veoAuthTokens" :: repeat "currentUser" k).
Proof.
  split; intro G; rewrite run_trace;
    change (?a :: ?b ++ ?c)%list with ([a] ++ b ++ c)%list;
    rewrite !storageReads_app.
  - destruct (given_true_singleton env logContext _ G) as (t & _ & E).
    unfold tokensToTry. rewrite E. cbn [fst snd app storageReads flat_map].
    rewrite runTokens_nonempty by discriminate. cbn [List.length].
    rewrite loop_step.
    destruct (settle (fetch env 0 (postRequest endpoint requestBody (mkToken t "N/A"))))
      as [d|e]; cbn [fst snd loop ret]; rewrite !storageReads_app, attempt_reads;
      reflexivity.
  - destruct (runTokens_reads (tokensToTry env logContext specificToken))
      as (k & Hk & ->).
    exists k. split; [exact Hk|].
    rewrite (rotation_events env logContext specificToken G), !storageReads_app.
    now rewrite getPersonalToken_reads, getSharedTokens_reads, refetch_reads.
Qed.

End StoreReads.

(** ** The further properties at concrete calls *)

Lemma resolved_by_the_first_working_candidate_witness :
  exists i c st,
    nth_error (tokensToTry Scenario.twoShared "VEO T2V" None) i = Some c
    /\ "shared-token-000002" = token c
    /\ fetch Scenario.twoShared i (postRequest "/api/veo" (JObj []) c)
       = FetchResponds st (Normal Scenario.resultOk)
    /\ ok st = true
    /\ everyAttemptFails Scenario.twoShared "/api/veo" (JObj []) 0
         (firstn i (tokensToTry Scenario.twoShared "VEO T2V" None)) = true
    /\ requests (trace (fetchWithTokenRotation Scenario.twoShared "/api/veo" (JObj [])
                          "VEO T2V" None))
       = map (postRequest "/api/veo" (JObj []))
           (firstn (S i) (tokensToTry Scenario.twoShared "VEO T2V" None)).
Proof.
  apply (resolved_by_the_first_working_candidate Scenario.twoShared "/api/veo" (JObj [])
           "VEO T2V" None Scenario.resultOk "shared-token-000002").
  reflexivity.
Defined.

Lemma rejected_without_a_working_candidate_witness :
  (tokensToTry Scenario.twoSharedFailing "VEO T2V" None = []
   /\ typeError "Failed to fetch"
      = newError ("Auth Token is required for " ++ "VEO T2V"
                  ++ ". Please set one in Settings."))
  \/ (everyAttemptFails Scenario.twoSharedFailing "/api/veo" (JObj []) 0
        (tokensToTry Scenario.twoSharedFailing "VEO T2V" None) = true
      /\ (exists c,
            nth_error (tokensToTry Scenario.twoSharedFailing "VEO T2V" None)
              (List.length (tokensToTry Scenario.twoSharedFailing "VEO T2V" None) - 1)
            = Some c
            /\ attemptError Scenario.twoSharedFailing "/api/veo" (JObj [])
                 (List.length (tokensToTry Scenario.twoSharedFailing "VEO T2V" None) - 1)
                 c = Some (typeError "Failed to fetch"))
      /\ List.length (requests (trace (fetchWithTokenRotation Scenario.twoSharedFailing
                                         "/api/veo" (JObj []) "VEO T2V" None)))
         = List.length (tokensToTry Scenario.twoSharedFailing "VEO T2V" None)).
Proof.
  apply (rejected_without_a_working_candidate Scenario.twoSharedFailing "/api/veo"
           (JObj []) "VEO T2V" None (typeError "Failed to fetch")).
  reflexivity.
Defined.

Lemma audit_entries_keep_the_books_witness :
  model (failureEntry Scenario.twoShared "VEO T2V" 0 Scenario.S1
           (newError "quota exceeded")) = "VEO T2V"
  /\ tokenCount (failureEntry Scenario.twoShared "VEO T2V" 0 Scenario.S1
                   (newError "quota exceeded")) = 0
  /\ (status (failureEntry Scenario.twoShared "VEO T2V" 0 Scenario.S1
                (newError "quota exceeded")) = StatusError
      <-> error (failureEntry Scenario.twoShared "VEO T2V" 0 Scenario.S1
                   (newError "quota exceeded")) <> None).
Proof.
  apply (audit_entries_keep_the_books Scenario.twoShared "/api/veo" (JObj []) "VEO T2V"
           None).
  vm_compute. right. left. reflexivity.
Defined.

Lemma attempt_entries_show_six_characters_at_most_witness :
  exists c pre,
    In c (tokensToTry Scenario.twoShared "VEO T2V" None)
    /\ token c = pre ++ sliceLast 6 (token c)
    /\ output (attemptEntry Scenario.twoShared "VEO T2V" 1 Scenario.S2)
       = "..." ++ sliceLast 6 (token c)
    /\ String.length (output (attemptEntry Scenario.twoShared "VEO T2V" 1 Scenario.S2))
       <= 9.
Proof.
  apply (attempt_entries_show_six_characters_at_most Scenario.twoShared "/api/veo"
           (JObj []) "VEO T2V" None); [|reflexivity].
  vm_compute. right. right. left. reflexivity.
Defined.

Lemma cached_tokens_are_used_as_they_are_witness :
  tokensToTry Scenario.personalAndShared "VEO T2V" None
  = (personalList Scenario.personalAndShared
     ++ cachedShared (sessionStorage_veoAuthTokens Scenario.personalAndShared))%list
  /\ refreshCalls (trace (fetchWithTokenRotation Scenario.personalAndShared "/api/veo"
                            (JObj []) "VEO T2V" None)) = 0
  /\ sessionWrites (trace (fetchWithTokenRotation Scenario.personalAndShared "/api/veo"
                             (JObj []) "VEO T2V" None)) = []
  /\ sessionAfter (fetchWithTokenRotation Scenario.personalAndShared "/api/veo" (JObj [])
                     "VEO T2V" None)
     = sessionStorage_veoAuthTokens Scenario.personalAndShared.
Proof.
  apply (cached_tokens_are_used_as_they_are Scenario.personalAndShared "/api/veo"
           (JObj []) "VEO T2V" None); [reflexivity|discriminate].
Defined.

Lemma personal_token_is_asked_first_witness :
  tokensToTry Scenario.personalAndShared "VEO T2V" None
  = (Scenario.P1 :: sharedTokensUsed Scenario.personalAndShared "VEO T2V")%list
  /\ hd_error (requests (trace (fetchWithTokenRotation Scenario.personalAndShared
                                  "/api/veo" (JObj []) "VEO T2V" None)))
     = Some (mkRequest "/api/veo" "POST"
               [("Content-Type", "application/json");
                ("Authorization", "Bearer " ++ token Scenario.P1)] (JObj []))
  /\ token Scenario.P1 <> "".
Proof.
  apply (personal_token_is_asked_first Scenario.personalAndShared "/api/veo" (JObj [])
           "VEO T2V" None Scenario.P1); reflexivity.
Defined.

Lemma next_call_finds_the_tokens_cached_witness :
  tokensToTry
    (withRefresh
       (withSession Scenario.refetching
          (sessionAfter (fetchWithTokenRotation Scenario.refetching "/api/veo" (JObj [])
                           "VEO T2V" None)))
       (Throw (newError "offline")))
    "VEO T2V" None
  = tokensToTry Scenario.refetching "VEO T2V" None
  /\ refreshCalls
       (trace (fetchWithTokenRotation
                 (withRefresh
                    (withSession Scenario.refetching
                       (sessionAfter (fetchWithTokenRotation Scenario.refetching
                                        "/api/veo" (JObj []) "VEO T2V" None)))
                    (Throw (newError "offline")))
                 "/api/veo" (JObj []) "VEO T2V" None)) = 0.
Proof.
  refine (proj2 (next_call_finds_the_tokens_cached Scenario.refetching "/api/veo"
                   (JObj []) "VEO T2V" None eq_refl) _ (Throw (newError "offline"))).
  discriminate.
Defined.

Lemma rotation_labels_follow_origin_witness :
  (personalToken Scenario.personalAndShared = Some Scenario.S1 /\ 1 = 0
   /\ labelOf Scenario.personalAndShared 1 Scenario.S1 = "Personal Token")
  \/ (exists k,
        1 = List.length (personalList Scenario.personalAndShared) + k
        /\ nth_error (sharedTokensUsed Scenario.personalAndShared "VEO T2V") k
           = Some Scenario.S1
        /\ labelOf Scenario.personalAndShared 1 Scenario.S1
           = "Shared Token #" ++ string_of_Z (Z.of_nat k + 1)).
Proof.
  apply (rotation_labels_follow_origin Scenario.personalAndShared "/api/veo" (JObj [])
           "VEO T2V" None 1 Scenario.S1); reflexivity.
Defined.

(** * The image suite view

    [AiImageSuiteView] keeps one piece of state, the active tab, and
    renders the view of that tab. What is modelled: the [tabs] array, the
    switch of [renderActiveTabContent], and the bodies of the two effects,
    as the change each makes to the active tab when React runs it (after
    the first render, and after a render in which its dependency has
    changed). Presets, the language and the callbacks are passed through
    untouched, so their types are parameters. *)

Module AiImageSuiteView.

Inductive TabId := generation | enhancer | remover | product | model.

Record Tab := mkTab { id : TabId; label : string }.

Definition tabs : list Tab :=
  [mkTab generation "Image Generation";
   mkTab product "Product Photos";
   mkTab model "Model Photos";
   mkTab enhancer "Enhancer";
   mkTab remover "BG Remover"].

(** [useState<TabId>('generation')] *)
Definition initialTab : TabId := generation.

Section Component.

Variables VideoGenPreset ImageEditPreset Language : Type.
Variables OnCreateVideo OnReEdit Clear : Type.

Record Props := mkProps
  { onCreateVideo : OnCreateVideo;
    onReEdit : OnReEdit;
    imageToReEdit : option ImageEditPreset;
    clearReEdit : Clear;
    presetPrompt : option string;
    clearPresetPrompt : Clear;
    language : Language }.

(** The element a tab renders, with the props it is given. *)
Inductive Element : Type :=
| ImageGenerationView (onReEdit : OnReEdit) (onCreateVideo : OnCreateVideo)
    (imageToReEdit : option ImageEditPreset) (clearReEdit : Clear)
    (presetPrompt : option string) (clearPresetPrompt : Clear)
| ImageEnhancerView (onReEdit : OnReEdit) (onCreateVideo : OnCreateVideo)
| BackgroundRemoverView (onReEdit : OnReEdit) (onCreateVideo : OnCreateVideo)
| ProductPhotoView (onReEdit : OnReEdit) (onCreateVideo : OnCreateVideo)
    (language : Language)
| TiktokAffiliateView (onReEdit : OnReEdit) (onCreateVideo : OnCreateVideo)
    (language : Language).

(** The switch; its [default] branch has no [TabId] left to serve. *)
Definition renderActiveTabContent (props : Props) (activeTab : TabId) : Element :=
  match activeTab with
  | generation =>
      ImageGenerationView (onReEdit props) (onCreateVideo props) (imageToReEdit props)
        (clearReEdit props) (presetPrompt props) (clearPresetPrompt props)
  | enhancer => ImageEnhancerView (onReEdit props) (onCreateVideo props)
  | remover => BackgroundRemoverView (onReEdit props) (onCreateVideo props)
  | product => ProductPhotoView (onReEdit props) (onCreateVideo props) (language props)
  | model => TiktokAffiliateView (onReEdit props) (onCreateVideo props) (language props)
  end.

(** [if (imageToReEdit) setActiveTab('generation')]: an object is truthy,
    [null] is not. *)
Definition reEditEffect (props : Props) (activeTab : TabId) : TabId :=
  match imageToReEdit props with
  | Some _ => generation
  | None => activeTab
  end.

(** [if (presetPrompt) setActiveTab('generation')]: [null] and the empty
    string are falsy. *)
Definition presetPromptEffect (props : Props) (activeTab : TabId) : TabId :=
  match presetPrompt props with
  | Some p => if String.eqb p "" then activeTab else generation
  | None => activeTab
  end.

(** The component a rendered element is an instance of. *)
Definition componentOf (e : Element) : string :=
  match e with
  | ImageGenerationView _ _ _ _ _ _ => "ImageGenerationView"
  | ImageEnhancerView _ _ => "ImageEnhancerView"
  | BackgroundRemoverView _ _ => "BackgroundRemoverView"
  | ProductPhotoView _ _ _ => "ProductPhotoView"
  | TiktokAffiliateView _ _ _ => "TiktokAffiliateView"
  end.

(** The two callbacks every view is given. *)
Definition commonProps (e : Element) : OnReEdit * OnCreateVideo :=
  match e with
  | ImageGenerationView r v _ _ _ _ => (r, v)
  | ImageEnhancerView r v | BackgroundRemoverView r v => (r, v)
  | ProductPhotoView r v _ | TiktokAffiliateView r v _ => (r, v)
  end.

(** X14. The tab bar and the switch agree: every tab id has exactly one
    tab in the bar, no two tabs render the same component, and whatever the
    tab, the rendered view is handed the suite's own [onReEdit] and
    [onCreateVideo]. *)
Theorem every_tab_has_a_view_of_its_own (props : Props) :
  NoDup (map id tabs)
  /\ (forall t : TabId, In t (map id tabs))
  /\ (forall t1 t2 : TabId,
        componentOf (renderActiveTabContent props t1)
        = componentOf (renderActiveTabContent props t2) -> t1 = t2)
  /\ (forall t : TabId,
        commonProps (renderActiveTabContent props t)
        = (onReEdit props, onCreateVideo props)).
Proof.
  split; [|split; [|split]].
  - cbn. repeat constructor; cbn; intuition discriminate.
  - intros []; cbn; auto 6.
  - intros [] []; cbn; intro H; try reflexivity; discriminate H.
  - intros []; reflexivity.
Qed.

(** X15. When the effect of a new image to re-edit, or of a new non-empty
    preset prompt, has run, the suite shows the generation view, whichever
    tab was open, and that view is handed the image and the prompt of the
    props; with no image, and with no prompt or an empty one, the effect
    leaves the open tab alone. *)
Theorem presets_bring_up_the_generation_view (props : Props) (activeTab : TabId) :
  (forall img, imageToReEdit props = Some img ->
     renderActiveTabContent props (reEditEffect props activeTab)
     = ImageGenerationView (onReEdit props) (onCreateVideo props) (Some img)
         (clearReEdit props) (presetPrompt props) (clearPresetPrompt props))
  /\ (forall p, presetPrompt props = Some p -> p <> "" ->
        renderActiveTabContent props (presetPromptEffect props activeTab)
        = ImageGenerationView (onReEdit props) (onCreateVideo props)
            (imageToReEdit props) (clearReEdit props) (Some p) (clearPresetPrompt props))
  /\ (imageToReEdit props = None -> reEditEffect props activeTab = activeTab)
  /\ (presetPrompt props = None \/ presetPrompt props = Some "" ->
      presetPromptEffect props activeTab = activeTab).
Proof.
  unfold reEditEffect, presetPromptEffect. split; [|split; [|split]].
  - intros img H. rewrite H. cbn. now rewrite H.
  - intros p H Hp. rewrite H. destruct (String.eqb_spec p ""); [contradiction|].
    cbn. now rewrite H.
  - now intros ->.
  - intros [->| ->]; reflexivity.
Qed.

End Component.

End AiImageSuiteView.
